(** * syphon.hash: hash entries, open hash files and the hash-file handle

    A shallow embedding of [src/syphon/hash.py] and the properties of its
    three classes: [HashEntry], [_OpenHashFile] and [HashFile].

    Modelling conventions.
    - A Python [str] is a list of characters ([list ascii], one code point
      below 256 per element); [bytes] is a list of [Byte.byte].
    - Mutable objects are threaded through a state-and-exception monad
      [M]: a raised exception keeps the state reached so far, exactly as
      a Python exception leaves the objects mutated before it.
    - The text stream behind an [_OpenHashFile] is a character sequence
      with a cursor.  The encoding takes one byte per character, so that
      the offsets of [tell] and [seek] count characters, and the stream is
      read and written without newline translation (POSIX, no carriage
      returns in the data).
    - [hashlib] and the files that are hashed are interfaces (type
      classes): the development is parametric in the digest function. *)

From Stdlib Require Import Ascii String ZArith Lia.
From stdpp Require Import base option list gmap strings.

Set Default Proof Using "Type".

(* ===================================================================== *)
(** * Part I: the program                                                 *)
(* ===================================================================== *)

(** ** Python strings *)

Abbreviation str := (list ascii).
Abbreviation bytes := (list Byte.byte).

Definition py (s : string) : str := list_ascii_of_string s.
Arguments py s%_string.

Definition LF : ascii := "010"%char.
Definition SP : ascii := " "%char.
Definition STAR : ascii := "*"%char.
Definition DQUOTE : ascii := "034"%char.

Definition is_LF (c : ascii) : bool := Ascii.eqb c LF.

(** [str.isspace] on one character, also the class [\s] of [re] for
    [str] patterns: TAB..CR, FS..US, space, NEL and NBSP. *)
Definition isspace (c : ascii) : bool :=
  let n := nat_of_ascii c in
  ((9 <=? n) && (n <=? 13)) || ((28 <=? n) && (n <=? 32))
  || (n =? 133) || (n =? 160).

(** The class [[a-fA-F0-9]]. *)
Definition is_hex (c : ascii) : bool :=
  let n := nat_of_ascii c in
  ((48 <=? n) && (n <=? 57)) || ((97 <=? n) && (n <=? 102))
  || ((65 <=? n) && (n <=? 70)).

(** Longest prefix whose characters satisfy [p], and the rest. *)
Fixpoint span (p : ascii -> bool) (s : str) : str * str :=
  match s with
  | c :: s' =>
      if p c then let '(a, b) := span p s' in (c :: a, b) else ([], s)
  | [] => ([], [])
  end.

Definition lstrip (s : str) : str := snd (span isspace s).
Definition rstrip (s : str) : str := rev (lstrip (rev s)).
(** [s.strip()] *)
Definition strip (s : str) : str := rstrip (lstrip s).

(** [s.startswith("*")] *)
Definition startswith_star (s : str) : bool :=
  match s with
  | c :: _ => Ascii.eqb c STAR
  | [] => false
  end.

(** The last group of the pattern (any characters, greedy) followed by [$],
    against the rest of the subject: [.] takes everything but a line
    feed, and [$] holds at the end or just before a final line feed. *)
Definition dot_star_dollar (s : str) : option str :=
  let '(body, tail) := span (fun c => negb (is_LF c)) s in
  match tail with
  | [] => Some body
  | [_] => Some body
  | _ => None
  end.

(** [re.findall(pattern, s)] for the pattern of [_default_line_split]:
    start of subject, a group of one or more hex digits, one or more white
    space characters, a group of any characters, [$].  The pattern is anchored
    and not multi-line, so there is at most one match.  Both [+] are
    greedy; giving back hex digits can never help (the next character
    would have to be white space and is a hex digit), and giving back
    white space only prepends it to the last group, which fails [$] if
    and only if the shorter group does. *)
Definition re_findall (s : str) : list (str * str) :=
  let '(digest, rest) := span is_hex s in
  let '(blank, path) := span isspace rest in
  match digest, blank with
  | _ :: _, _ :: _ =>
      match dot_star_dollar path with
      | Some group2 => [(digest, group2)]
      | None => []
      end
  | _, _ => []
  end.

(** ** Exceptions and the monad *)

Inductive exn :=
| ValueError (msg : str)
| TypeError
| MalformedLineError (line : str)
| OSError (path : str)
| LoopBound.
(** [LoopBound] is not a Python exception: it marks the bound of the
    model's loops, which [OpenHashFileFacts.update_total] and
    [OpenHashFileFacts.entries_total] show is never hit. *)

Inductive result (A : Type) :=
| Return (a : A)
| Raise (e : exn).
Arguments Return {A} a.
Arguments Raise {A} e.

(** ** [hashlib] and the hashed files, as interfaces *)

Class Hashlib := {
  HASH : Type;
  (** [name in hashlib.algorithms_available] *)
  algorithms_available : str -> bool;
  (** [hashlib.new(name)]; [None] when it raises [ValueError] *)
  hashlib_new : str -> option HASH;
  (** [h.name] *)
  hash_name : HASH -> str;
  (** [h.update(data)] *)
  hash_update : HASH -> bytes -> HASH;
  (** [h.hexdigest()] *)
  hexdigest : HASH -> str;
}.

Class Filesystem := {
  (** [open(path, "rb").read()]; [None] when [open] raises *)
  read_rb : str -> option bytes;
  (** [bytes(t.read(), t.encoding)] for [t = open(path, "rt")] *)
  read_rt : str -> option bytes;
}.

(** [DEFAULT_HASH_TYPE = hashlib.sha256().name] *)
Definition DEFAULT_HASH_TYPE : str := py "sha256".

Module SplitResult.
Record t := make { hash : str; file : str; binary : bool }.
End SplitResult.

(** [sep.join(parts)] *)
Fixpoint str_join (sep : str) (parts : list str) : str :=
  match parts with
  | [] => []
  | [p] => p
  | p :: rest => p ++ sep ++ str_join sep rest
  end.

(** Computations over mutable objects of state [S] that may raise. *)
Definition M (S A : Type) : Type := S -> result A * S.

Global Instance M_ret {S} : MRet (M S) := fun A a s => (Return a, s).
Global Instance M_bind {S} : MBind (M S) := fun A B f m s =>
  match m s with
  | (Return a, s') => f a s'
  | (Raise e, s') => (Raise e, s')
  end.

Definition raise {S A} (e : exn) : M S A := fun s => (Raise e, s).
Definition gets {S A} (f : S -> A) : M S A := fun s => (Return (f s), s).
Definition modify {S} (f : S -> S) : M S unit := fun s => (Return (), f s).
(** A pure computation that may raise, run inside [M]. *)
Definition lift_result {S A} (r : result A) : M S A := fun s => (r, s).

(** ** class HashEntry *)

(** The argument of the [hash_type] setter: a [str] or any other object. *)
Inductive pyobj :=
| PyStr (s : str)
| PyOther.

Module HashEntry.
Section HashEntry.
Context {hl : Hashlib} {fs : Filesystem}.

Record t := make {
  _hash_cache : str;
  _hash_obj : HASH;
  _raw_entry : str;
  binary : bool;
  filepath : str;
}.

(** What the methods of an entry act on: the entry itself and the log
    of the files read for hashing ([(path, binary)], latest first). *)
Record world := World { self : t; reads : list (str * bool) }.

Definition set_hash_cache (v : str) (w : world) : world :=
  World (make v (_hash_obj (self w)) (_raw_entry (self w))
           (binary (self w)) (filepath (self w))) (reads w).

Definition set_hash_obj (h : HASH) (w : world) : world :=
  World (make (_hash_cache (self w)) h (_raw_entry (self w))
           (binary (self w)) (filepath (self w))) (reads w).

Definition log_read (path : str) (mode : bool) (w : world) : world :=
  World (self w) ((path, mode) :: reads w).

(** ['Unsupported hash type "{}"'.format(name)] *)
Definition unsupported (name : str) : str :=
  py "Unsupported hash type " ++ [DQUOTE] ++ name ++ [DQUOTE].

Definition __init__ (filepath : str) (binary : bool)
    (hash_type : option str) : result t :=
  let hash_type := default DEFAULT_HASH_TYPE hash_type in
  if negb (algorithms_available hash_type)
  then Raise (ValueError (unsupported hash_type))
  else
    match hashlib_new hash_type with
    | None =>
        (* raised by [hashlib.new] itself *)
        Raise (ValueError (py "unsupported hash type " ++ hash_type))
    | Some h => Return (make [] h [] binary filepath)
    end.

(** [open(path, mode).read()], with the read logged. *)
Definition open_read (path : str) (as_binary : bool) : M world bytes :=
  match (if as_binary then read_rb path else read_rt path) with
  | None => raise (OSError path)
  | Some data => modify (log_read path as_binary);; mret data
  end.

Definition _hash : M world str :=
  e ← gets self;
  data ← (if binary e then open_read (filepath e) true
          else open_read (filepath e) false);
  modify (set_hash_obj (hash_update (_hash_obj e) data));;
  e ← gets self;
  mret (hexdigest (_hash_obj e)).

Definition cached : M world bool :=
  e ← gets self;
  mret (negb (bool_decide (_hash_cache e = []))).

Definition hash : M world str :=
  e ← gets self;
  if 0 <? length (_hash_cache e) then mret (_hash_cache e)
  else
    new_hash ← _hash;
    modify (set_hash_cache new_hash);;
    mret new_hash.

Definition __str__ : M world str :=
  h ← hash;
  e ← gets self;
  mret (str_join [SP] [h; (if binary e then STAR else SP) :: filepath e]).

(** The [hash_type] property: its getter, on an entry and in [M]. *)
Definition hash_type_of (e : t) : str := hash_name (_hash_obj e).

Definition hash_type : M world str := gets (fun w => hash_type_of (self w)).

(** The [hash_type] setter. *)
Definition set_hash_type (value : pyobj) : M world unit :=
  match value with
  | PyOther => raise TypeError
  | PyStr value =>
      e ← gets self;
      if bool_decide (hash_name (_hash_obj e) = value) then mret ()
      else
        match hashlib_new value with
        | Some h => modify (set_hash_obj h)
        | None => raise (ValueError (unsupported value))
        end
  end.

Definition _default_line_split (line : str) : option SplitResult.t :=
  match re_findall (strip line) with
  | match_tuple :: _ =>
      let filepath := snd match_tuple in
      let is_binary := startswith_star filepath in
      Some (SplitResult.make (fst match_tuple)
              (if is_binary then drop 1 filepath else filepath) is_binary)
  | [] => None
  end.

Definition from_str (entry : str)
    (line_split : option (str -> option SplitResult.t))
    (hash_type : option str) : result t :=
  let line_split := default _default_line_split line_split in
  match line_split entry with
  | None => Raise (MalformedLineError (strip entry))
  | Some split =>
      match __init__ (SplitResult.file split) (SplitResult.binary split)
              hash_type with
      | Raise e => Raise e
      | Return result =>
          Return (make (SplitResult.hash split) (_hash_obj result) entry
                    (binary result) (filepath result))
      end
  end.

(** *** Vocabulary of the properties *)

(** The marker character of an entry's line. *)
Definition marker (e : t) : ascii := if binary e then STAR else SP.

(** What [_hash] reads: the target, in the mode of the entry. *)
Definition read_target (e : t) : option bytes :=
  if binary e then read_rb (filepath e) else read_rt (filepath e).

(** [n] accesses to the [hash] property in a row, and what each returned. *)
Fixpoint hash_calls (n : nat) : M world (list str) :=
  match n with
  | 0 => mret []
  | S n =>
      h ← hash;
      rest ← hash_calls n;
      mret (h :: rest)
  end.

(** A line made of the digest, one separator character and the path. *)
Definition single_separator_line (e : t) (h : str) : str :=
  h ++ [marker e] ++ filepath e.

Definition ends_with_space (s : str) : bool :=
  match last s with
  | Some c => isspace c
  | None => false
  end.

(** The entries a line can carry: the cached digest is a non-empty run of
    hex digits; the path has no line feed and does not end in white space;
    and the path of a text-mode entry starts with a character that is
    neither white space nor the binary marker. *)
Definition representable (e : t) : bool :=
  negb (bool_decide (_hash_cache e = []))
  && forallb is_hex (_hash_cache e)
  && forallb (fun c => negb (is_LF c)) (filepath e)
  && negb (ends_with_space (filepath e))
  && (binary e
      || match filepath e with
         | c :: _ => negb (isspace c) && negb (Ascii.eqb c STAR)
         | [] => false
         end).

End HashEntry.
End HashEntry.

(** ** Text streams and the file objects of the process *)

Definition NUL : ascii := "000"%char.

(** A text stream opened with mode ["r+t"]: what it holds and where its
    cursor is.  Each function is the method of the same name. *)
Module TextIO.
Record t := make { content : str; position : nat }.

Definition tell (f : t) : nat := position f.

(** [seek(offset)] *)
Definition seek (offset : nat) (f : t) : t := make (content f) offset.

(** [seek(0, 2)] *)
Definition seek_end (f : t) : t := make (content f) (length (content f)).

(** [read()]: everything from the cursor on. *)
Definition read (f : t) : str * t :=
  (drop (position f) (content f),
   make (content f) (position f `max` length (content f))).

(** [readline()]: up to and including the next line feed, or to the end. *)
Definition readline (f : t) : str * t :=
  let '(body, tail) :=
    span (fun c => negb (is_LF c)) (drop (position f) (content f)) in
  let line := match tail with [] => body | nl :: _ => body ++ [nl] end in
  (line, make (content f) (position f + length line)).

(** [write(s)]: overwrites from the cursor on and extends the stream at
    its end; a cursor beyond the end leaves a gap of NUL characters. *)
Definition write (s : str) (f : t) : t :=
  let c := content f in
  let p := position f in
  make (take p c ++ replicate (p - length c) NUL ++ s ++ drop (p + length s) c)
       (p + length s).

(** The lines of a text, each with its line feed (the last one may lack
    it); [cur] is the line being read, latest character first. *)
Fixpoint split_lines (cur : str) (s : str) : list str :=
  match s with
  | [] => match cur with [] => [] | _ => [rev cur] end
  | c :: s' =>
      if is_LF c then rev (c :: cur) :: split_lines [] s'
      else split_lines (c :: cur) s'
  end.

(** [readlines()]: the lines from the cursor to the end, a full scan. *)
Definition readlines (f : t) : list str * t :=
  (split_lines [] (drop (position f) (content f)),
   make (content f) (position f `max` length (content f))).

(** Whether a text lacks its final line feed. *)
Definition needs_newline (s : str) : bool :=
  match last s with
  | Some c => negb (is_LF c)
  | None => false
  end.

(** A complete line: characters other than line feeds, then a line feed. *)
Definition complete_line (l : str) : bool :=
  match snd (span (fun c => negb (is_LF c)) l) with
  | [_] => true
  | _ => false
  end.

(** A line of a stream, given what follows it: a complete line, or a
    last line without its line feed. *)
Definition stream_line (l rest : str) : bool :=
  complete_line l
  || (negb (bool_decide (l = [])) && forallb (fun c => negb (is_LF c)) l
      && bool_decide (rest = [])).
End TextIO.

(** The file objects created by [open], by address, and the files on disk
    that [open] finds. *)
Module Process.
Record file_object :=
  FileObject { path : str; io : TextIO.t; closed : bool }.

Record t := make { disk : gmap str str; heap : list file_object }.

Definition close_object (o : file_object) : file_object :=
  FileObject (path o) (io o) true.

(** [open(path, "r+t")]: a new file object, or [None] when the file does
    not exist. *)
Definition open (p : str) (w : t) : option (nat * t) :=
  match disk w !! p with
  | None => None
  | Some text =>
      Some (length (heap w),
            make (disk w) (heap w ++ [FileObject p (TextIO.make text 0) false]))
  end.

(** [f.close()] on the file object at address [fd]. *)
Definition close (fd : nat) (w : t) : t :=
  make (disk w) (alter close_object fd (heap w)).

Definition is_open (fd : nat) (w : t) : bool :=
  match heap w !! fd with
  | Some o => negb (closed o)
  | None => false
  end.
End Process.

(** ** class _OpenHashFile *)

Module _OpenHashFile.
Section _OpenHashFile.
Context {hl : Hashlib} {fs : Filesystem}.

(** The object: the address of its file object and its two attributes. *)
Record t := make {
  _file_obj : nat;
  hash_type : str;
  line_split : option (str -> option SplitResult.t);
}.

(** What [append] and [update] act on: the stream behind [self._file_obj]
    and the entry passed to them (with the log of its reads). *)
Record state := State { file_obj : TextIO.t; arg : HashEntry.world }.

Definition on_file {A} (f : TextIO.t -> A * TextIO.t) : M state A :=
  fun s => let '(a, f') := f (file_obj s) in (Return a, State f' (arg s)).

Definition on_entry {A} (m : M HashEntry.world A) : M state A :=
  fun s => let '(r, w) := m (arg s) in (r, State (file_obj s) w).

Definition seek (offset : nat) : M state unit :=
  on_file (fun f => ((), TextIO.seek offset f)).
Definition seek_end : M state unit :=
  on_file (fun f => ((), TextIO.seek_end f)).
Definition read : M state str := on_file TextIO.read.
Definition readline : M state str := on_file TextIO.readline.
Definition write (s : str) : M state unit :=
  on_file (fun f => ((), TextIO.write s f)).

Definition tell (self : t) : M state nat :=
  on_file (fun f => (TextIO.tell f, f)).

(** ["Expected hash type {0}, but received {1}".format(expected, received)] *)
Definition mismatch (expected received : str) : str :=
  py "Expected hash type " ++ expected ++ py ", but received " ++ received.

Definition append (self : t) : M state unit :=
  entry_hash_type ← on_entry HashEntry.hash_type;
  if negb (bool_decide (entry_hash_type = hash_type self))
  then raise (ValueError (mismatch (hash_type self) entry_hash_type))
  else
    initial_position ← tell self;
    seek_end;;
    here ← tell self;
    add_newline ←
      (if negb (here =? 0)
       then seek (here - 1);;
            tail ← read;
            mret (negb (bool_decide (tail = [LF])))
       else mret false);
    text ← on_entry HashEntry.__str__;
    write ((if add_newline : bool then [LF] else []) ++ text ++ [LF]);;
    seek initial_position.

(** [entries()], run to exhaustion: the entries from the cursor on. *)
Fixpoint entries_loop (fuel : nat) (self : t) : M state (list HashEntry.t) :=
  match fuel with
  | 0 => raise LoopBound
  | S fuel =>
      line ← readline;
      if length line =? 0 then mret []
      else
        found ← lift_result
          (HashEntry.from_str line (line_split self) (Some (hash_type self)));
        rest ← entries_loop fuel self;
        mret (found :: rest)
  end.

Definition loop_bound : M state nat :=
  gets (fun s => S (length (TextIO.content (file_obj s)))).

Definition entries (self : t) : M state (list HashEntry.t) :=
  fuel ← loop_bound;
  entries_loop fuel self.

(** The [for found in self.entries()] loop of [update]; the result tells
    whether the loop left through [break]. *)
Fixpoint update_loop (fuel : nat) (self : t) (previous_position : nat)
    : M state bool :=
  match fuel with
  | 0 => raise LoopBound
  | S fuel =>
      line ← readline;
      if length line =? 0 then mret false
      else
        found ← lift_result
          (HashEntry.from_str line (line_split self) (Some (hash_type self)));
        entry ← on_entry (gets HashEntry.self);
        if bool_decide (HashEntry.filepath entry = HashEntry.filepath found)
        then
          seek previous_position;;
          new_hash ← on_entry HashEntry.hash;
          write new_hash;;
          mret true
        else
          previous_position ← tell self;
          update_loop fuel self previous_position
  end.

Definition update (self : t) : M state unit :=
  entry_hash_type ← on_entry HashEntry.hash_type;
  if negb (bool_decide (entry_hash_type = hash_type self))
  then raise (ValueError (mismatch (hash_type self) entry_hash_type))
  else
    initial_position ← tell self;
    fuel ← loop_bound;
    broke ← update_loop fuel self initial_position;
    (if broke : bool then mret () else append self);;
    seek initial_position.

(** [close()], on the file objects of the process. *)
Definition close (self : t) (w : Process.t) : Process.t :=
  Process.close (_file_obj self) w.

(** *** Vocabulary of the properties *)

(** How the stream parses a line. *)
Definition parse (self : t) (line : str) : result HashEntry.t :=
  HashEntry.from_str line (line_split self) (Some (hash_type self)).

(** The entries of a list of lines, when each of them parses. *)
Fixpoint parse_lines (self : t) (lines : list str)
    : result (list HashEntry.t) :=
  match lines with
  | [] => Return []
  | line :: lines =>
      match parse self line with
      | Raise e => Raise e
      | Return found =>
          match parse_lines self lines with
          | Raise e => Raise e
          | Return rest => Return (found :: rest)
          end
      end
  end.

(** A complete line that parses to an entry for another path. *)
Definition other_entry_line (self : t) (path : str) (line : str) : Prop :=
  TextIO.complete_line line = true
  /\ exists found : HashEntry.t,
       parse self line = Return found /\ HashEntry.filepath found <> path.

End _OpenHashFile.
End _OpenHashFile.

(** ** class HashFile *)

Module HashFile.
Section HashFile.
Context {hl : Hashlib} {fs : Filesystem}.

Record t := make {
  _count : Z;
  _file : option _OpenHashFile.t;
  _hash_type : str;
  filepath : str;
}.

(** The handle and the file objects of the process. *)
Record state := State { self : t; process : Process.t }.

Definition set_count (f : Z -> Z) (s : state) : state :=
  State (make (f (_count (self s))) (_file (self s)) (_hash_type (self s))
           (filepath (self s))) (process s).

Definition set_file (v : option _OpenHashFile.t) (s : state) : state :=
  State (make (_count (self s)) v (_hash_type (self s)) (filepath (self s)))
        (process s).

Definition __init__ (filepath : str) (hash_type : option str) : result t :=
  let hash_type := default DEFAULT_HASH_TYPE hash_type in
  if negb (algorithms_available hash_type)
  then Raise (ValueError (HashEntry.unsupported hash_type))
  else Return (make 0 None hash_type filepath).

(** [open(path, "r+t")] *)
Definition open (p : str) : M state nat :=
  fun s =>
    match Process.open p (process s) with
    | None => (Raise (OSError p), s)
    | Some (fd, w) => (Return fd, State (self s) w)
    end.

Definition __enter__ : M state _OpenHashFile.t :=
  modify (set_count (fun n : Z => (n + 1)%Z));;
  h ← gets self;
  match _file h with
  | Some f => mret f
  | None =>
      fd ← open (filepath h);
      let f := _OpenHashFile.make fd (_hash_type h) None in
      modify (set_file (Some f));;
      mret f
  end.

Definition __exit__ : M state unit :=
  h ← gets self;
  match _file h with
  | Some f =>
      modify (set_count (fun n : Z => (n - 1)%Z));;
      h ← gets self;
      if (_count h =? 0)%Z
      then
        modify (fun s => State (self s) (_OpenHashFile.close f (process s)));;
        modify (set_file None)
      else mret ()
  | None => mret ()
  end.

(** *** Vocabulary of the properties *)

(** Whether the stream [f] is open in the process of [s]. *)
Definition stream_open (f : _OpenHashFile.t) (s : state) : bool :=
  Process.is_open (_OpenHashFile._file_obj f) (process s).

(** A handle as [__init__], [__enter__] and [__exit__] leave it: no stream
    and a counter at zero, or an open stream and a positive counter. *)
Definition consistent (s : state) : Prop :=
  match _file (self s) with
  | None => _count (self s) = 0%Z
  | Some f => (0 < _count (self s))%Z /\ stream_open f s = true
  end.

End HashFile.
End HashFile.

(** ** A small instance, to run the program on *)

Module Demo.

Definition hex_digit (n : nat) : ascii :=
  ascii_of_nat (if n <? 10 then 48 + n else 87 + n).

(** A toy digest: a checksum of the data below 251, as four hex digits
    (two for the algorithm [md5]). *)
Definition checksum (data : bytes) : nat :=
  foldl (fun acc b => (acc * 31 + Byte.to_nat b) `mod` 251) 7 data.

Definition toy_hexdigest (h : str * bytes) : str :=
  let n := checksum (snd h) in
  let low := [hex_digit (n `div` 16); hex_digit (n `mod` 16)] in
  if bool_decide (fst h = py "md5") then low
  else [hex_digit (length (snd h) `mod` 16); hex_digit ((n * 7) `mod` 16)]
       ++ low.

Definition toy_available (name : str) : bool :=
  bool_decide (name = py "sha256") || bool_decide (name = py "md5").

#[export] Instance toy_hashlib : Hashlib := {|
  HASH := str * bytes;
  algorithms_available := toy_available;
  hashlib_new := fun name =>
    if toy_available name then Some (name, []) else None;
  hash_name := fst;
  hash_update := fun h data => (fst h, snd h ++ data);
  hexdigest := toy_hexdigest;
|}.

(** One file to hash, [data.csv], with the same bytes in both modes. *)
Definition data_csv : bytes := [Byte.x61; Byte.x2c; Byte.x62; Byte.x0a].

#[export] Instance toy_filesystem : Filesystem := {|
  read_rb := fun p => if bool_decide (p = py "data.csv") then Some data_csv else None;
  read_rt := fun p => if bool_decide (p = py "data.csv") then Some data_csv else None;
|}.

Definition sha256_obj : HASH := (py "sha256", []).
Definition md5_obj : HASH := (py "md5", []).

(** [HashEntry(filepath, binary)] with the digest [cache] already known. *)
Definition entry (cache filepath : string) (binary : bool) : HashEntry.t :=
  HashEntry.make (py cache) sha256_obj [] binary (py filepath).

(** An entry none of whose reads has happened yet. *)
Definition no_reads (e : HashEntry.t) : HashEntry.world := HashEntry.World e [].

Definition stream : _OpenHashFile.t := _OpenHashFile.make 0 (py "sha256") None.

(** The text of a hash file with the given lines. *)
Definition manifest (lines : list str) : str :=
  concat (map (fun l => l ++ [LF]) lines).

(** The stream over [text] with its cursor at [cursor], and the entry [e]
    to append or update. *)
Definition at_cursor (text : str) (cursor : nat) (e : HashEntry.t)
    : _OpenHashFile.state :=
  _OpenHashFile.State (TextIO.make text cursor) (no_reads e).

(** A process with the hash file [sha256sums] on disk and no file object
    yet, and a fresh handle on that file. *)
Definition fresh_process : Process.t :=
  Process.make {[ py "sha256sums" := manifest [py "ab  f"] ]} [].

Definition handle : HashFile.t :=
  HashFile.make 0 None (py "sha256") (py "sha256sums").

(** The same handle once acquired, and the process then. *)
Definition held_handle : HashFile.t :=
  HashFile.make 1 (Some stream) (py "sha256") (py "sha256sums").

Definition process_with_stream : Process.t :=
  Process.make (Process.disk fresh_process)
    [Process.FileObject (py "sha256sums")
       (TextIO.make (manifest [py "ab  f"]) 0) false].

End Demo.

(** ** Vocabulary of the further properties *)

(** A stripped line on which the pattern cannot match: no hex digit at its
    start, nothing after the hex digits, or a character after them that is
    not white space. *)
Definition no_digest_and_blank (s : str) : bool :=
  let '(digest, rest) := span is_hex s in
  match digest, rest with
  | [], _ => true
  | _, [] => true
  | _, c :: _ => negb (isspace c)
  end.

Module Calls.
Section Calls.
Context {hl : Hashlib} {fs : Filesystem}.

(** [n] nested [with] statements entered on a handle, and the streams
    they were given, first one first. *)
Fixpoint enters (n : nat) : M HashFile.state (list _OpenHashFile.t) :=
  match n with
  | 0 => mret []
  | S n =>
      f ← HashFile.__enter__;
      rest ← enters n;
      mret (f :: rest)
  end.

(** [n] of them left. *)
Fixpoint exits (n : nat) : M HashFile.state unit :=
  match n with
  | 0 => mret ()
  | S n => HashFile.__exit__;; exits n
  end.

(** The stream with another entry passed to its methods. *)
Definition with_entry (s : _OpenHashFile.state) (w : HashEntry.world)
    : _OpenHashFile.state :=
  _OpenHashFile.State (_OpenHashFile.file_obj s) w.

(** The stream rewound to offset 0. *)
Definition rewound (s : _OpenHashFile.state) : _OpenHashFile.state :=
  _OpenHashFile.State (TextIO.seek 0 (_OpenHashFile.file_obj s))
    (_OpenHashFile.arg s).

End Calls.
End Calls.

(* ===================================================================== *)
(** * Part II: properties                                                 *)
(* ===================================================================== *)

(** Unfolding the monad: one computation step of [M]. *)
Ltac run :=
  cbv [mbind M_bind mret M_ret gets modify raise lift_result]; cbn.

Lemma bind_run {S A B} (m : M S A) (f : A -> M S B) (s : S) :
  (m ≫= f) s =
    match m s with
    | (Return a, s') => f a s'
    | (Raise e, s') => (Raise e, s')
    end.
Proof. reflexivity. Qed.

(** ** Characters and prefixes *)

Lemma hex_not_space (c : ascii) : is_hex c = true -> isspace c = false.
Proof. destruct c as [[] [] [] [] [] [] [] []]; vm_compute; congruence. Qed.

Lemma span_all (p : ascii -> bool) (s : str) :
  forallb p s = true -> span p s = (s, []).
Proof.
  induction s as [|c s IH]; simpl; [reflexivity|].
  intros [Hc Hs]%andb_prop. rewrite Hc, (IH Hs). reflexivity.
Qed.

Lemma span_stop (p : ascii -> bool) (a : str) (c : ascii) (r : str) :
  forallb p a = true -> p c = false -> span p (a ++ c :: r) = (a, c :: r).
Proof.
  intros Ha Hc. induction a as [|x a IH]; simpl in *.
  - rewrite Hc. reflexivity.
  - apply andb_prop in Ha as [Hx Ha]. rewrite Hx, (IH Ha). reflexivity.
Qed.

Lemma span_spec (p : ascii -> bool) (s a b : str) :
  span p s = (a, b) ->
  s = a ++ b /\ forallb p a = true
  /\ match b with c :: _ => p c = false | [] => True end.
Proof.
  revert a b. induction s as [|c s IH]; intros a b; cbn.
  - intros [= <- <-]. auto.
  - destruct (p c) eqn:Hc.
    + destruct (span p s) as [a' b'] eqn:Hs. intros [= <- <-].
      destruct (IH _ _ eq_refl) as (-> & Ha & Hb).
      cbn. rewrite Hc. auto.
    + intros [= <- <-]. cbn. auto.
Qed.

Lemma lstrip_id (c : ascii) (s : str) :
  isspace c = false -> lstrip (c :: s) = c :: s.
Proof. intros H. unfold lstrip. simpl. rewrite H. reflexivity. Qed.

Lemma rstrip_id (s : str) (c : ascii) :
  isspace c = false -> rstrip (s ++ [c]) = s ++ [c].
Proof.
  intros H. unfold rstrip. rewrite rev_app_distr. simpl.
  rewrite (lstrip_id _ _ H). simpl. rewrite rev_involutive. reflexivity.
Qed.

(** ** HashEntry *)

Module HashEntryFacts.
Import HashEntry.
Section Facts.
Context {hl : Hashlib} {fs : Filesystem}.

Lemma hash_of_cached (w : world) :
  _hash_cache (self w) <> [] -> hash w = (Return (_hash_cache (self w)), w).
Proof.
  destruct w as [[cache obj raw b p] log]. simpl. intros H.
  destruct cache; [congruence | reflexivity].
Qed.

Lemma hash_of_uncached (w : world) (data : bytes) :
  _hash_cache (self w) = [] ->
  read_target (self w) = Some data ->
  let obj := hash_update (_hash_obj (self w)) data in
  hash w =
    (Return (hexdigest obj),
     World (make (hexdigest obj) obj (_raw_entry (self w)) (binary (self w))
              (filepath (self w)))
           ((filepath (self w), binary (self w)) :: reads w)).
Proof.
  destruct w as [[cache obj raw b p] log]. unfold read_target. simpl.
  intros -> Hread. unfold hash, _hash, open_read.
  destruct b; simpl in Hread; run; rewrite Hread; reflexivity.
Qed.

Lemma hash_keeps_path (w w' : world) (h : str) :
  hash w = (Return h, w') ->
  binary (self w') = binary (self w) /\ filepath (self w') = filepath (self w)
  /\ _hash_cache (self w') = h.
Proof.
  destruct w as [[cache obj raw b p] log].
  destruct cache as [|c cache].
  - unfold hash, _hash, open_read.
    destruct b; run; [destruct (read_rb p) | destruct (read_rt p)]; cbn;
      intros [= <- <-]; auto.
  - cbn. intros [= <- <-]. auto.
Qed.

Lemma str_unfold (w : world) :
  __str__ w =
    match hash w with
    | (Return h, w') =>
        (Return (h ++ [SP] ++ [marker (self w')] ++ filepath (self w')), w')
    | (Raise e, w') => (Raise e, w')
    end.
Proof.
  unfold __str__. rewrite bind_run. destruct (hash w) as [[h|e] w']; reflexivity.
Qed.

(** C2, amended: the textual form of an entry is its hex digest, then a
    space, then the marker character ([*] for a binary entry, a space
    otherwise), then the path: two characters stand between the digest and
    the path. *)
Theorem str_digest_space_marker_path (w w' : world) (h : str) :
  hash w = (Return h, w') ->
  __str__ w = (Return (h ++ [SP] ++ [marker (self w)] ++ filepath (self w)), w').
Proof.
  intros Hh. rewrite str_unfold, Hh.
  destruct (hash_keeps_path _ _ _ Hh) as (Hb & Hp & _).
  unfold marker. rewrite Hb, Hp. reflexivity.
Qed.

Lemma hash_calls_of_cached (w : world) (n : nat) :
  _hash_cache (self w) <> [] ->
  hash_calls n w = (Return (replicate n (_hash_cache (self w))), w).
Proof.
  intros Hc. induction n as [|n IH]; [reflexivity|].
  cbn [hash_calls replicate].
  rewrite bind_run, (hash_of_cached w Hc), bind_run, IH. reflexivity.
Qed.

(** C7: a populated cache is returned as it is, by every access, with no
    file read and no other change; on an uncached entry whose target can
    be read, the first access reads the target once and caches the digest,
    and the second and all later accesses return the same digest without
    another read. *)
Theorem hash_memoized (w : world) :
  (_hash_cache (self w) <> [] ->
   hash w = (Return (_hash_cache (self w)), w)
   /\ forall n : nat,
        hash_calls n w = (Return (replicate n (_hash_cache (self w))), w))
  /\ (forall data : bytes,
       _hash_cache (self w) = [] ->
       read_target (self w) = Some data ->
       hexdigest (hash_update (_hash_obj (self w)) data) <> [] ->
       exists (h : str) (w1 : world),
         hash w = (Return h, w1)
         /\ hash w1 = (Return h, w1)
         /\ (forall n : nat, hash_calls n w1 = (Return (replicate n h), w1))
         /\ _hash_cache (self w1) = h
         /\ reads w1 = (filepath (self w), binary (self w)) :: reads w).
Proof.
  split.
  { intros Hc. split; [apply (hash_of_cached w Hc)|].
    intros n. apply (hash_calls_of_cached w n Hc). }
  intros data Hc Hr Hd.
  pose proof (hash_of_uncached w data Hc Hr) as H1. cbv zeta in H1.
  eexists _, _. split; [exact H1|].
  split; [rewrite hash_of_cached; [reflexivity | exact Hd]|].
  split; [|split; reflexivity].
  intros n. rewrite hash_calls_of_cached; [reflexivity | exact Hd].
Qed.

(** C8: assigning the current name to [hash_type] changes nothing;
    assigning another supported name installs the new hash object and
    leaves the cached digest, and every other attribute, as they were. *)
Theorem set_hash_type_keeps_cache (w : world) (value : str) :
  (hash_type_of (self w) = value ->
   set_hash_type (PyStr value) w = (Return (), w))
  /\ (forall h : HASH,
       hash_type_of (self w) <> value ->
       hashlib_new value = Some h ->
       exists w' : world,
         set_hash_type (PyStr value) w = (Return (), w')
         /\ _hash_obj (self w') = h
         /\ _hash_cache (self w') = _hash_cache (self w)
         /\ _raw_entry (self w') = _raw_entry (self w)
         /\ binary (self w') = binary (self w)
         /\ filepath (self w') = filepath (self w)
         /\ reads w' = reads w).
Proof.
  unfold hash_type_of, set_hash_type. split.
  - intros Heq. run. rewrite bool_decide_eq_true_2 by exact Heq. reflexivity.
  - intros h Hne Hnew. run. rewrite bool_decide_eq_false_2 by exact Hne.
    rewrite Hnew. eexists. split; [reflexivity|]. cbn. tauto.
Qed.

Lemma rstrip_clean (s : str) :
  s <> [] -> ends_with_space s = false -> rstrip s = s.
Proof.
  unfold ends_with_space. intros Hne Hend.
  destruct (last s) as [z|] eqn:Hlast.
  - apply last_Some in Hlast as [s' ->]. apply rstrip_id, Hend.
  - apply last_None in Hlast. congruence.
Qed.

Lemma ends_with_space_cons (m : ascii) (p : str) :
  isspace m = false ->
  ends_with_space p = false -> ends_with_space (m :: p) = false.
Proof.
  unfold ends_with_space. intros Hm Hp.
  rewrite last_cons. destruct (last p); [exact Hp | exact Hm].
Qed.

Lemma ends_with_space_app (a : str) (m : ascii) (p : str) :
  ends_with_space (a ++ m :: p) = ends_with_space (m :: p).
Proof. unfold ends_with_space. rewrite last_app_cons. reflexivity. Qed.

Lemma strip_clean (c : ascii) (s : str) :
  isspace c = false ->
  ends_with_space (c :: s) = false -> strip (c :: s) = c :: s.
Proof.
  intros Hc Hend. unfold strip. rewrite (lstrip_id _ _ Hc).
  apply rstrip_clean; [discriminate | exact Hend].
Qed.

Lemma findall_line (cache blank p : str) (c : ascii) :
  cache <> [] ->
  forallb is_hex cache = true ->
  blank <> [] ->
  forallb isspace blank = true ->
  isspace c = false ->
  forallb (fun x => negb (is_LF x)) (c :: p) = true ->
  re_findall (cache ++ blank ++ c :: p) = [(cache, c :: p)].
Proof.
  intros Hne Hhex Hbne Hblank Hc Hlf. unfold re_findall.
  destruct blank as [|b blank]; [congruence|].
  cbn in Hblank. apply andb_prop in Hblank as [Hb Hblank].
  change ((b :: blank) ++ c :: p) with (b :: (blank ++ c :: p)).
  rewrite (span_stop is_hex cache b (blank ++ c :: p) Hhex).
  2:{ destruct (is_hex b) eqn:E; [|reflexivity].
      apply hex_not_space in E. congruence. }
  change (b :: blank ++ c :: p) with ((b :: blank) ++ c :: p).
  rewrite (span_stop isspace (b :: blank) c p);
    [|cbn; rewrite Hb; exact Hblank|exact Hc].
  unfold dot_star_dollar. rewrite (span_all _ (c :: p) Hlf).
  destruct cache; [congruence | reflexivity].
Qed.

Lemma default_split_of_line (e : t) :
  representable e = true ->
  _default_line_split (_hash_cache e ++ [SP] ++ [marker e] ++ filepath e) =
    Some (SplitResult.make (_hash_cache e) (filepath e) (binary e)).
Proof.
  destruct e as [cache obj raw b p]. unfold representable, marker.
  cbn [_hash_cache filepath binary app].
  intros H.
  apply andb_prop in H as [H Hb]. apply andb_prop in H as [H Hend].
  apply andb_prop in H as [H Hlf]. apply andb_prop in H as [Hne Hhex].
  apply negb_true_iff, bool_decide_eq_false in Hne.
  apply negb_true_iff in Hend.
  unfold _default_line_split.
  destruct cache as [|c cache]; [congruence|].
  assert (Hc : isspace c = false).
  { apply hex_not_space. cbn in Hhex. apply andb_prop in Hhex. tauto. }
  assert (Hq : ends_with_space ((if b then STAR else SP) :: p) = false).
  { destruct b; [apply ends_with_space_cons; [reflexivity | exact Hend]|].
    destruct p as [|z p]; [discriminate|].
    unfold ends_with_space. rewrite last_cons_cons. exact Hend. }
  cbn [app]. rewrite strip_clean; [|exact Hc|].
  2:{ change (ends_with_space
                ((c :: cache) ++ SP :: (if b then STAR else SP) :: p) = false).
      rewrite ends_with_space_app.
      unfold ends_with_space. rewrite last_cons_cons. exact Hq. }
  destruct b.
  - change (c :: cache ++ SP :: STAR :: p)
      with ((c :: cache) ++ [SP] ++ STAR :: p).
    rewrite (findall_line (c :: cache) [SP] p STAR); try done.
  - cbn in Hb. destruct p as [|z p]; [discriminate|].
    apply andb_prop in Hb as [Hz1 Hz2]. apply negb_true_iff in Hz1, Hz2.
    change (c :: cache ++ SP :: SP :: z :: p)
      with ((c :: cache) ++ [SP; SP] ++ z :: p).
    rewrite (findall_line (c :: cache) [SP; SP] p z); try done.
    cbn. unfold startswith_star. rewrite Hz2. reflexivity.
Qed.

(** *** Only representable entries come out of the default splitter *)

Lemma lstrip_head (s : str) :
  match lstrip s with c :: _ => isspace c = false | [] => True end.
Proof.
  unfold lstrip. destruct (span isspace s) as [a b] eqn:Hs.
  apply span_spec in Hs as (_ & _ & Hb). exact Hb.
Qed.

Lemma strip_ends_clean (s : str) : ends_with_space (strip s) = false.
Proof.
  unfold strip, rstrip, ends_with_space.
  pose proof (lstrip_head (rev (lstrip s))) as H.
  destruct (lstrip (rev (lstrip s))) as [|c r]; [reflexivity|].
  cbn [rev]. rewrite last_snoc. exact H.
Qed.

Lemma all_space_ends_with_space (a blank : str) :
  blank <> [] -> forallb isspace blank = true ->
  ends_with_space (a ++ blank) = true.
Proof.
  intros Hne Hall. unfold ends_with_space.
  destruct blank as [|z blank _] using rev_ind; [congruence|].
  rewrite app_assoc, last_snoc.
  rewrite forallb_app in Hall. apply andb_prop in Hall as [_ Hz].
  cbn in Hz. apply andb_prop in Hz. tauto.
Qed.

Lemma findall_groups (s digest group2 : str) (more : list (str * str)) :
  ends_with_space s = false ->
  re_findall s = (digest, group2) :: more ->
  digest <> [] /\ forallb is_hex digest = true
  /\ forallb (fun c => negb (is_LF c)) group2 = true
  /\ ends_with_space group2 = false
  /\ match group2 with c :: _ => isspace c = false | [] => False end.
Proof.
  intros Hend. unfold re_findall.
  destruct (span is_hex s) as [d rest] eqn:Hd.
  destruct (span isspace rest) as [blank path] eqn:Hb.
  apply span_spec in Hd as (-> & Hhex & _).
  apply span_spec in Hb as (-> & Hblank & Hhead).
  destruct d as [|c d]; [discriminate|].
  destruct blank as [|z blank]; [discriminate|].
  unfold dot_star_dollar.
  destruct (span _ path) as [body tail] eqn:Hp.
  apply span_spec in Hp as (-> & Hbody & Htail).
  assert (Hpath : ends_with_space (body ++ tail) = false).
  { destruct (body ++ tail) as [|x path] eqn:E.
    - rewrite app_nil_r in Hend.
      rewrite (all_space_ends_with_space (c :: d) (z :: blank)) in Hend;
        [discriminate | discriminate | exact Hblank].
    - rewrite app_assoc in Hend.
      rewrite (ends_with_space_app ((c :: d) ++ z :: blank) x path) in Hend.
      exact Hend. }
  destruct tail as [|nl [|? ?]]; [| |discriminate].
  - intros [= <- <- _]. rewrite app_nil_r in *.
    split; [discriminate|]. split; [exact Hhex|]. split; [exact Hbody|].
    split; [exact Hpath|].
    destruct body as [|x body]; [|exact Hhead].
    rewrite ?app_nil_r in Hend.
    rewrite (all_space_ends_with_space (c :: d) (z :: blank)) in Hend;
      [discriminate | discriminate | exact Hblank].
  - exfalso. unfold ends_with_space in Hpath. rewrite last_snoc in Hpath.
    apply negb_false_iff in Htail. unfold is_LF in Htail.
    apply Ascii.eqb_eq in Htail. subst nl. discriminate.
Qed.

Lemma default_split_representable (line : str) (split : SplitResult.t)
    (obj : HASH) (raw : str) :
  _default_line_split line = Some split ->
  representable (make (SplitResult.hash split) obj raw
                   (SplitResult.binary split) (SplitResult.file split)) = true.
Proof.
  unfold _default_line_split.
  destruct (re_findall (strip line)) as [|[d g] more] eqn:Hre; [discriminate|].
  apply (findall_groups _ _ _ _ (strip_ends_clean line)) in Hre
    as (Hne & Hhex & Hlf & Hend & Hhead).
  intros [= <-]. unfold representable.
  cbn [_hash_cache filepath binary SplitResult.hash SplitResult.file
       SplitResult.binary fst snd].
  rewrite bool_decide_eq_false_2 by exact Hne. rewrite Hhex. cbn [negb andb].
  destruct g as [|c g]; [contradiction|].
  unfold startswith_star. destruct (Ascii.eqb c STAR) eqn:Hstar.
  - change (drop 1 (c :: g)) with g. cbn in Hlf. apply andb_prop in Hlf as [_ Hlf]. rewrite Hlf.
    cbn [andb orb]. rewrite andb_true_r. apply negb_true_iff.
    unfold ends_with_space in *. rewrite last_cons in Hend.
    destruct (last g); [exact Hend | reflexivity].
  - rewrite Hlf, Hend, Hhead, Hstar. reflexivity.
Qed.

(** Every entry [from_str] makes with the default splitter is
    representable. *)
Lemma parsed_representable (line : str) (hash_type : option str) (parsed : t) :
  from_str line None hash_type = Return parsed -> representable parsed = true.
Proof.
  unfold from_str. cbn [default].
  destruct (_default_line_split line) as [split|] eqn:Hsplit; [|discriminate].
  destruct (__init__ _ _ _) as [made|e] eqn:Hinit; [|discriminate].
  intros [= <-]. unfold __init__ in Hinit.
  destruct (negb _); [discriminate|].
  destruct (hashlib_new _); [|discriminate].
  injection Hinit as <-. cbn [_hash_obj binary filepath].
  apply (default_split_representable line), Hsplit.
Qed.

(** So the entries that survive the round trip are the representable ones
    and no others. *)
Lemma round_trip_only_representable (e parsed : t) (line : str)
    (hash_type : option str) :
  from_str line None hash_type = Return parsed ->
  filepath parsed = filepath e ->
  binary parsed = binary e ->
  _hash_cache parsed = _hash_cache e ->
  representable e = true.
Proof.
  intros Hparse Hp Hb Hc. apply parsed_representable in Hparse.
  unfold representable in *. rewrite <- Hp, <- Hb, <- Hc. exact Hparse.
Qed.

(** C3, amended: for a representable entry, parsing its line with the
    default splitter gives back its path, its mode and its digest. *)
Theorem from_str_of_str (w : world) (hash_type : option str) (h : HASH) :
  representable (self w) = true ->
  algorithms_available (default DEFAULT_HASH_TYPE hash_type) = true ->
  hashlib_new (default DEFAULT_HASH_TYPE hash_type) = Some h ->
  exists (text : str) (parsed : t),
    __str__ w = (Return text, w)
    /\ from_str text None hash_type = Return parsed
    /\ filepath parsed = filepath (self w)
    /\ binary parsed = binary (self w)
    /\ _hash_cache parsed = _hash_cache (self w).
Proof.
  intros Hrep Havail Hnew.
  assert (Hcached : _hash_cache (self w) <> []).
  { unfold representable in Hrep. repeat (apply andb_prop in Hrep as [Hrep _]).
    apply negb_true_iff, bool_decide_eq_false in Hrep. exact Hrep. }
  eexists _, _. split.
  { rewrite str_unfold, (hash_of_cached w Hcached). reflexivity. }
  unfold from_str. cbn [default].
  rewrite (default_split_of_line _ Hrep). unfold __init__.
  cbn [SplitResult.file SplitResult.binary SplitResult.hash].
  rewrite Havail, Hnew. cbn. auto.
Qed.

End Facts.

Import Demo.

(** C2, as stated, fails: the text-mode entry with digest [ab] and path [f]
    prints with two spaces, not one. *)
Lemma str_single_separator_fails :
  let e := entry "ab" "f" false in
  __str__ (no_reads e) = (Return (py "ab  f"), no_reads e)
  /\ py "ab  f" <> single_separator_line e (py "ab").
Proof. split; [reflexivity | discriminate]. Qed.

(** C3, as stated, fails: the text-mode entry with path [*f] prints as
    [ab  *f], which parses as the binary entry with path [f]. *)
Lemma from_str_of_str_star_path_fails :
  let e := entry "ab" "*f" false in
  exists parsed : t,
    __str__ (no_reads e) = (Return (py "ab  *f"), no_reads e)
    /\ from_str (py "ab  *f") None None = Return parsed
    /\ binary parsed <> binary e
    /\ filepath parsed <> filepath e.
Proof.
  eexists. split; [reflexivity|]. split; [reflexivity|].
  split; discriminate.
Qed.

Lemma from_str_of_str_witness :
  exists (text : str) (parsed : t),
    let e := entry "ab" "f" false in
    __str__ (no_reads e) = (Return text, no_reads e)
    /\ from_str text None None = Return parsed
    /\ filepath parsed = filepath e
    /\ binary parsed = binary e
    /\ _hash_cache parsed = _hash_cache e.
Proof.
  apply (from_str_of_str (no_reads (entry "ab" "f" false)) None
           (py "sha256", [])); reflexivity.
Defined.

Lemma str_digest_space_marker_path_witness :
  let w := no_reads (entry "ab" "f" true) in
  hash w = (Return (py "ab"), w)
  /\ __str__ w = (Return (py "ab *f"), w).
Proof.
  split; [reflexivity|].
  apply (str_digest_space_marker_path (no_reads (entry "ab" "f" true))
           (no_reads (entry "ab" "f" true)) (py "ab")).
  reflexivity.
Defined.

Lemma hash_memoized_witness :
  (let w := no_reads (entry "ab" "data.csv" false) in
   hash w = (Return (py "ab"), w)
   /\ forall n : nat, hash_calls n w = (Return (replicate n (py "ab")), w))
  /\ (exists (h : str) (w1 : world),
        let w := no_reads (entry "" "data.csv" true) in
        hash w = (Return h, w1)
        /\ hash w1 = (Return h, w1)
        /\ (forall n : nat, hash_calls n w1 = (Return (replicate n h), w1))
        /\ _hash_cache (self w1) = h
        /\ reads w1 = [(py "data.csv", true)]).
Proof.
  split.
  - apply (proj1 (hash_memoized (no_reads (entry "ab" "data.csv" false)))).
    discriminate.
  - apply (proj2 (hash_memoized (no_reads (entry "" "data.csv" true))) data_csv).
    + reflexivity.
    + reflexivity.
    + vm_compute. discriminate.
Defined.

Lemma set_hash_type_keeps_cache_witness :
  (let w := no_reads (entry "ab" "f" false) in
   set_hash_type (PyStr (py "sha256")) w = (Return (), w))
  /\ (exists w' : world,
        let w := no_reads (entry "ab" "f" false) in
        set_hash_type (PyStr (py "md5")) w = (Return (), w')
        /\ _hash_obj (self w') = (py "md5", [])
        /\ _hash_cache (self w') = py "ab"
        /\ _raw_entry (self w') = []
        /\ binary (self w') = false
        /\ filepath (self w') = py "f"
        /\ reads w' = []).
Proof.
  split.
  - apply (proj1 (set_hash_type_keeps_cache (no_reads (entry "ab" "f" false))
                    (py "sha256"))).
    reflexivity.
  - apply (proj2 (set_hash_type_keeps_cache (no_reads (entry "ab" "f" false))
                    (py "md5")) (py "md5", [])).
    + vm_compute. discriminate.
    + reflexivity.
Defined.

End HashEntryFacts.

(** ** _OpenHashFile *)

Module OpenHashFileFacts.
Import _OpenHashFile.
Section Facts.
Context {hl : Hashlib} {fs : Filesystem}.

Lemma drop_last (s : str) (z : ascii) :
  drop (length (s ++ [z]) - 1) (s ++ [z]) = [z].
Proof.
  rewrite length_app. cbn [length].
  replace (length s + 1 - 1) with (length s) by lia.
  rewrite drop_app_length. reflexivity.
Qed.

Lemma write_at_end (s text : str) :
  TextIO.write text (TextIO.make s (length s)) =
    TextIO.make (s ++ text) (length s + length text).
Proof.
  unfold TextIO.write. cbn [TextIO.content TextIO.position].
  rewrite firstn_all, Nat.sub_diag. cbn [replicate app].
  rewrite drop_ge by lia. rewrite app_nil_r. reflexivity.
Qed.

(** [append], case by case: the guard, then the line of the entry. *)
Lemma append_cases (self : t) (s : state) :
  append self s =
    let old := TextIO.content (file_obj s) in
    let received := HashEntry.hash_type_of (HashEntry.self (arg s)) in
    if bool_decide (received = hash_type self) then
      match HashEntry.__str__ (arg s) with
      | (Return text, w') =>
          (Return (),
           State (TextIO.make
                    (old ++ (if TextIO.needs_newline old then [LF] else [])
                         ++ text ++ [LF])
                    (TextIO.position (file_obj s)))
                 w')
      | (Raise e, w') =>
          (Raise e, State (TextIO.make old (length old)) w')
      end
    else (Raise (ValueError (mismatch (hash_type self) received)), s).
Proof.
  destruct s as [[old p] w]. cbn [arg file_obj TextIO.content TextIO.position].
  cbv zeta. unfold append.
  rewrite bind_run. unfold on_entry at 1, HashEntry.hash_type. run.
  destruct (bool_decide _); [|reflexivity]. cbn [negb].
  unfold tell, seek_end, seek, read, write, on_file, on_entry. run.
  destruct old as [|z old _] using rev_ind.
  - cbn. destruct (HashEntry.__str__ w) as [[text|e] w']; [|reflexivity].
    cbn. unfold TextIO.write, TextIO.seek. cbn.
    rewrite drop_nil, app_nil_r. reflexivity.
  - assert (Hlen : (length (old ++ [z]) =? 0) = false).
    { apply Nat.eqb_neq. rewrite length_app. cbn. lia. }
    rewrite Hlen. cbn [negb]. unfold TextIO.seek_end.
    cbn [file_obj arg TextIO.content TextIO.position].
    rewrite drop_last, Nat.max_r by lia.
    destruct (HashEntry.__str__ w) as [[text|e] w']; [|reflexivity].
    cbn [file_obj arg]. rewrite write_at_end.
    unfold TextIO.needs_newline. rewrite last_snoc. unfold TextIO.seek.
    cbn [TextIO.content]. f_equal. f_equal. f_equal. f_equal.
    unfold is_LF. destruct (Ascii.eqb_spec z LF) as [->|Hz].
    + rewrite bool_decide_eq_true_2 by reflexivity. reflexivity.
    + rewrite bool_decide_eq_false_2 by congruence. reflexivity.
Qed.

Lemma append_run (self : t) (s : state) (text : str) (w' : HashEntry.world) :
  HashEntry.hash_type_of (HashEntry.self (arg s)) = hash_type self ->
  HashEntry.__str__ (arg s) = (Return text, w') ->
  let old := TextIO.content (file_obj s) in
  append self s =
    (Return (),
     State (TextIO.make
              (old ++ (if TextIO.needs_newline old then [LF] else []) ++ text ++ [LF])
              (TextIO.position (file_obj s)))
           w').
Proof.
  intros Hty Hstr. rewrite append_cases. cbv zeta.
  rewrite bool_decide_eq_true_2 by exact Hty. rewrite Hstr. reflexivity.
Qed.

Lemma split_lines_last_line (text cur : str) :
  forallb (fun c => negb (is_LF c)) text = true ->
  TextIO.split_lines cur (text ++ [LF]) = [rev cur ++ text ++ [LF]].
Proof.
  revert cur. induction text as [|c text IH]; intros cur Hlf.
  - reflexivity.
  - cbn in Hlf. apply andb_prop in Hlf as [Hc Hlf].
    apply negb_true_iff in Hc. cbn. rewrite Hc, (IH _ Hlf). cbn.
    rewrite <- app_assoc. reflexivity.
Qed.



(** C4: an entry of another hash type makes both [append] and [update]
    raise [ValueError] at once: the stream (contents and cursor), the entry
    and the log of reads are as before the call. *)
Theorem mismatch_raises_unchanged (self : t) (s : state) :
  HashEntry.hash_type_of (HashEntry.self (arg s)) <> hash_type self ->
  let e := ValueError (mismatch (hash_type self)
                         (HashEntry.hash_type_of (HashEntry.self (arg s)))) in
  append self s = (Raise e, s) /\ update self s = (Raise e, s).
Proof.
  intros Hne. destruct s as [f w]. cbn [arg] in *.
  unfold append, update. rewrite !bind_run.
  unfold on_entry at 1 3, HashEntry.hash_type. run.
  rewrite !bool_decide_eq_false_2 by exact Hne. split; reflexivity.
Qed.


Lemma complete_line_inv (l : str) :
  TextIO.complete_line l = true ->
  exists body : str,
    l = body ++ [LF] /\ forallb (fun c => negb (is_LF c)) body = true.
Proof.
  unfold TextIO.complete_line.
  destruct (span (fun c => negb (is_LF c)) l) as [body tail] eqn:Hs.
  apply span_spec in Hs as (-> & Hbody & Htail). cbn [snd].
  destruct tail as [|c [|? ?]]; try discriminate. intros _.
  exists body. split; [|exact Hbody].
  apply negb_false_iff in Htail. unfold is_LF in Htail.
  apply Ascii.eqb_eq in Htail. subst c. reflexivity.
Qed.

Lemma readline_line (before l rest : str) :
  TextIO.stream_line l rest = true ->
  TextIO.readline (TextIO.make (before ++ l ++ rest) (length before)) =
    (l, TextIO.make (before ++ l ++ rest) (length before + length l)).
Proof.
  intros Hl. unfold TextIO.readline.
  cbn [TextIO.content TextIO.position]. rewrite drop_app_length.
  apply orb_prop in Hl as [Hl|Hl].
  - apply complete_line_inv in Hl as (body & -> & Hbody).
    rewrite <- app_assoc. cbn [app].
    rewrite (span_stop _ body LF rest Hbody eq_refl). reflexivity.
  - apply andb_prop in Hl as [Hl Hrest]. apply andb_prop in Hl as [_ Hl].
    apply bool_decide_eq_true in Hrest. subst rest.
    rewrite app_nil_r, (span_all _ l Hl). reflexivity.
Qed.

Lemma stream_line_nonempty (l rest : str) :
  TextIO.stream_line l rest = true -> (length l =? 0) = false.
Proof.
  intros Hl. apply Nat.eqb_neq. apply orb_prop in Hl as [Hl|Hl].
  - apply complete_line_inv in Hl as (body & -> & _).
    rewrite length_app. cbn. lia.
  - apply andb_prop in Hl as [Hl _]. apply andb_prop in Hl as [Hl _].
    apply negb_true_iff, bool_decide_eq_false in Hl.
    destruct l; [congruence | cbn; lia].
Qed.

Lemma complete_is_stream_line (l rest : str) :
  TextIO.complete_line l = true -> TextIO.stream_line l rest = true.
Proof. intros H. unfold TextIO.stream_line. rewrite H. reflexivity. Qed.

(** One turn of the loop over a line for another path. *)
Lemma update_loop_skip (self : t) (fuel prev : nat) (before l rest : str)
    (w : HashEntry.world) :
  other_entry_line self (HashEntry.filepath (HashEntry.self w)) l ->
  update_loop (S fuel) self prev
    (State (TextIO.make (before ++ l ++ rest) (length before)) w) =
  update_loop fuel self (length before + length l)
    (State (TextIO.make (before ++ l ++ rest) (length before + length l)) w).
Proof.
  intros [Hl (found & Hparse & Hpath)].
  cbn [update_loop]. rewrite bind_run. unfold readline, on_file.
  cbn [file_obj arg].
  rewrite (readline_line before l rest (complete_is_stream_line l rest Hl)).
  rewrite (stream_line_nonempty l rest (complete_is_stream_line l rest Hl)).
  fold (parse self l). rewrite Hparse. unfold on_entry, tell, on_file. run.
  rewrite bool_decide_eq_false_2 by congruence. reflexivity.
Qed.

Lemma update_loop_skip_all (self : t) (skipped : list str) :
  forall (fuel : nat) (before rest : str) (w : HashEntry.world),
  Forall (other_entry_line self (HashEntry.filepath (HashEntry.self w)))
    skipped ->
  update_loop (length skipped + fuel) self (length before)
    (State (TextIO.make (before ++ concat skipped ++ rest) (length before)) w) =
  update_loop fuel self (length (before ++ concat skipped))
    (State (TextIO.make (before ++ concat skipped ++ rest)
              (length (before ++ concat skipped))) w).
Proof.
  induction skipped as [|l skipped IH]; intros fuel before rest w Hall.
  - cbn. rewrite app_nil_r. reflexivity.
  - apply Forall_cons in Hall as [Hl Hall]. cbn [length concat Nat.add].
    rewrite <- (app_assoc l). rewrite (update_loop_skip _ _ _ _ _ _ _ Hl).
    rewrite <- length_app.
    rewrite !(app_assoc before l).
    rewrite (IH fuel (before ++ l) rest w Hall). reflexivity.
Qed.

Lemma write_over (before old tail new : str) :
  length new = length old ->
  TextIO.write new (TextIO.make (before ++ old ++ tail) (length before)) =
    TextIO.make (before ++ new ++ tail) (length before + length new).
Proof.
  intros Hlen. unfold TextIO.write. cbn [TextIO.content TextIO.position].
  rewrite take_app_length.
  replace (length before - length (before ++ old ++ tail)) with 0
    by (rewrite length_app; lia).
  cbn [replicate app]. rewrite Hlen, drop_app_add', drop_app_length; auto.
Qed.

(** The turn of the loop that finds the path: the digest is written at the
    start of the line. *)
Lemma update_loop_hit (self : t) (fuel : nat) (before l rest : str)
    (w w' : HashEntry.world) (found : HashEntry.t) (new_hash : str) :
  TextIO.stream_line l rest = true ->
  parse self l = Return found ->
  HashEntry.filepath found = HashEntry.filepath (HashEntry.self w) ->
  HashEntry.hash w = (Return new_hash, w') ->
  update_loop (S fuel) self (length before)
    (State (TextIO.make (before ++ l ++ rest) (length before)) w) =
  (Return true,
   State (TextIO.write new_hash
            (TextIO.make (before ++ l ++ rest) (length before))) w').
Proof.
  intros Hl Hparse Hpath Hhash.
  cbn [update_loop]. rewrite bind_run. unfold readline, on_file.
  cbn [file_obj arg].
  rewrite (readline_line before l rest Hl), (stream_line_nonempty l rest Hl).
  fold (parse self l). rewrite Hparse.
  unfold on_entry, seek, write, on_file. run.
  rewrite bool_decide_eq_true_2 by congruence. run.
  rewrite Hhash. reflexivity.
Qed.

Lemma complete_line_length (l : str) :
  TextIO.complete_line l = true -> 1 <= length l.
Proof.
  intros (body & -> & _)%complete_line_inv. rewrite length_app. cbn. lia.
Qed.

Lemma skipped_length (self : t) (path : str) (skipped : list str) :
  Forall (other_entry_line self path) skipped ->
  length skipped <= length (concat skipped).
Proof.
  induction 1 as [|l skipped [Hl _] _ IH]; cbn; [lia|].
  rewrite length_app. apply complete_line_length in Hl. lia.
Qed.

Lemma hash_type_run (s : state) :
  on_entry HashEntry.hash_type s =
    (Return (HashEntry.hash_type_of (HashEntry.self (arg s))), s).
Proof. destruct s. reflexivity. Qed.

Lemma tell_run (self : t) (s : state) :
  tell self s = (Return (TextIO.position (file_obj s)), s).
Proof. destruct s. reflexivity. Qed.

Lemma loop_bound_run (s : state) :
  loop_bound s = (Return (S (length (TextIO.content (file_obj s)))), s).
Proof. reflexivity. Qed.

Lemma seek_run (offset : nat) (s : state) :
  seek offset s = (Return (), State (TextIO.seek offset (file_obj s)) (arg s)).
Proof. reflexivity. Qed.

(** In-place overwrite: when the scan of [update] meets the line of the
    path (the stream is
    at the start of a line, the lines from there to that line are entries
    for other paths, and the line starts with its digest [old]) and the new
    digest is as long as [old], [update] returns, the new digest stands
    where [old] stood, every other character of the stream is as before
    (so its length is, too) and the cursor is where it was. *)
Theorem update_overwrites_digest (self : t) (s : state)
    (before : str) (skipped : list str) (old tail after : str)
    (found : HashEntry.t) (new_hash : str) (w' : HashEntry.world) :
  HashEntry.hash_type_of (HashEntry.self (arg s)) = hash_type self ->
  TextIO.content (file_obj s) = before ++ concat skipped ++ (old ++ tail) ++ after ->
  TextIO.position (file_obj s) = length before ->
  Forall (other_entry_line self (HashEntry.filepath (HashEntry.self (arg s))))
    skipped ->
  TextIO.stream_line (old ++ tail) after = true ->
  parse self (old ++ tail) = Return found ->
  HashEntry.filepath found = HashEntry.filepath (HashEntry.self (arg s)) ->
  HashEntry._hash_cache found = old ->
  HashEntry.hash (arg s) = (Return new_hash, w') ->
  length new_hash = length old ->
  exists f' : TextIO.t,
    update self s = (Return (), State f' w')
    /\ TextIO.content f' = before ++ concat skipped ++ (new_hash ++ tail) ++ after
    /\ length (TextIO.content f') = length (TextIO.content (file_obj s))
    /\ TextIO.position f' = TextIO.position (file_obj s).
Proof.
  destruct s as [[text p] w]. cbn [arg file_obj TextIO.content TextIO.position].
  intros Hty -> -> Hskip Hline Hparse Hpath _ Hhash Hlen.
  eexists. split.
  - unfold update. rewrite bind_run, hash_type_run. cbn [arg].
    rewrite bool_decide_eq_true_2 by exact Hty. cbn [negb].
    rewrite bind_run, tell_run, bind_run, loop_bound_run, bind_run.
    cbn [file_obj TextIO.content TextIO.position].
    pose proof (skipped_length _ _ _ Hskip) as Hn.
    set (text := before ++ concat skipped ++ (old ++ tail) ++ after).
    assert (Hfuel : S (length text) =
                    length skipped + S (length text - length skipped)).
    { subst text. rewrite !length_app. lia. }
    rewrite Hfuel. subst text.
    rewrite (update_loop_skip_all self skipped _ before _ w Hskip).
    rewrite (app_assoc before (concat skipped)).
    rewrite (update_loop_hit self _ (before ++ concat skipped) (old ++ tail)
               after w w' found new_hash Hline Hparse Hpath Hhash).
    rewrite <- (app_assoc old tail after).
    rewrite (write_over _ old (tail ++ after) new_hash Hlen).
    rewrite bind_run. reflexivity.
  - unfold TextIO.seek. cbn [file_obj TextIO.content TextIO.position].
    rewrite <- !app_assoc. split; [reflexivity|]. split; [|reflexivity].
    rewrite !length_app. lia.
Qed.

(** *** The loops stay within their bound *)

Ltac not_bound H :=
  first [discriminate | cbn in *; intros [= ->]; apply H; reflexivity].

Lemma hash_not_loop_bound (w : HashEntry.world) :
  fst (HashEntry.hash w) <> Raise LoopBound.
Proof.
  destruct w as [[cache obj raw b p] log].
  unfold HashEntry.hash, HashEntry._hash, HashEntry.open_read.
  destruct cache; [|discriminate].
  destruct b; run; [destruct (read_rb p) | destruct (read_rt p)]; discriminate.
Qed.

Lemma str_not_loop_bound (w : HashEntry.world) :
  fst (HashEntry.__str__ w) <> Raise LoopBound.
Proof.
  rewrite HashEntryFacts.str_unfold.
  pose proof (hash_not_loop_bound w) as H.
  destruct (HashEntry.hash w) as [[h|e] w']; not_bound H.
Qed.

Lemma parse_not_loop_bound (self : t) (line : str) :
  parse self line <> Raise LoopBound.
Proof.
  unfold parse, HashEntry.from_str, HashEntry.__init__.
  destruct (default HashEntry._default_line_split (line_split self) line);
    [|discriminate].
  cbn [default]. destruct (negb _); [discriminate|].
  destruct (hashlib_new _); discriminate.
Qed.

Lemma append_not_loop_bound (self : t) (s : state) :
  fst (append self s) <> Raise LoopBound.
Proof.
  destruct s as [[text p] w]. unfold append.
  rewrite bind_run, hash_type_run. destruct (negb _); [discriminate|].
  unfold tell, seek_end, seek, read, write, on_file, on_entry. run.
  pose proof (str_not_loop_bound w) as H.
  destruct (negb (length text =? 0)); cbn;
    destruct (HashEntry.__str__ w) as [[h|e] w']; not_bound H.
Qed.

Lemma readline_progress (f f' : TextIO.t) (line : str) :
  TextIO.readline f = (line, f') ->
  line <> [] ->
  TextIO.content f' = TextIO.content f
  /\ TextIO.position f' = TextIO.position f + length line
  /\ TextIO.position f < length (TextIO.content f).
Proof.
  unfold TextIO.readline.
  destruct (span _ _) as [body tail] eqn:Hs. intros [= <- <-] Hne.
  cbn [TextIO.content TextIO.position]. split; [reflexivity|].
  split; [reflexivity|].
  destruct (decide (TextIO.position f < length (TextIO.content f)))
    as [|Hge]; [assumption|].
  rewrite drop_ge in Hs by lia. cbn in Hs. injection Hs as <- <-.
  congruence.
Qed.

Lemma update_loop_within_bound (self : t) (fuel : nat) :
  forall (prev : nat) (s : state),
  length (TextIO.content (file_obj s)) - TextIO.position (file_obj s) < fuel ->
  fst (update_loop fuel self prev s) <> Raise LoopBound.
Proof.
  induction fuel as [|fuel IH]; intros prev [f w] Hfuel; [lia|].
  cbn [file_obj] in Hfuel. cbn [update_loop]. rewrite bind_run.
  unfold readline, on_file. cbn [file_obj arg].
  destruct (TextIO.readline f) as [line f'] eqn:Hread.
  destruct (length line =? 0) eqn:Hlen; [discriminate|].
  apply Nat.eqb_neq in Hlen.
  assert (Hne : line <> []) by (intros ->; cbn in Hlen; lia).
  destruct (readline_progress f f' line Hread Hne) as (Hc & Hp & Hlt).
  rewrite bind_run. unfold lift_result. fold (parse self line).
  pose proof (parse_not_loop_bound self line) as Hparse.
  destruct (parse self line) as [found|e]; [|not_bound Hparse].
  rewrite bind_run. unfold on_entry at 1, gets. cbn [arg file_obj].
  destruct (bool_decide _).
  - rewrite bind_run, seek_run, bind_run. unfold on_entry. cbn [arg file_obj].
    pose proof (hash_not_loop_bound w) as Hhash.
    destruct (HashEntry.hash w) as [[h|e] w1]; not_bound Hhash.
  - rewrite bind_run, tell_run. apply IH. cbn [file_obj].
    rewrite Hc, Hp. destruct line; [congruence|]. cbn [length]. lia.
Qed.

(** [update] never reaches the bound of its loop. *)
Lemma update_total (self : t) (s : state) :
  fst (update self s) <> Raise LoopBound.
Proof.
  unfold update. rewrite bind_run, hash_type_run.
  destruct (negb _); [discriminate|].
  rewrite bind_run, tell_run, bind_run, loop_bound_run, bind_run.
  pose proof (update_loop_within_bound self
                (S (length (TextIO.content (file_obj s))))
                (TextIO.position (file_obj s)) s) as Hloop.
  destruct (update_loop _ self _ s) as [[broke|e] s1].
  - rewrite bind_run. destruct broke.
    + discriminate.
    + pose proof (append_not_loop_bound self s1) as Happ.
      destruct (append self s1) as [[[]|e] s2]; not_bound Happ.
  - cbn in *. intros [= ->]. apply Hloop; [lia | reflexivity].
Qed.

Lemma entries_loop_within_bound (self : t) (fuel : nat) :
  forall s : state,
  length (TextIO.content (file_obj s)) - TextIO.position (file_obj s) < fuel ->
  fst (entries_loop fuel self s) <> Raise LoopBound.
Proof.
  induction fuel as [|fuel IH]; intros [f w] Hfuel; [lia|].
  cbn [file_obj] in Hfuel. cbn [entries_loop]. rewrite bind_run.
  unfold readline, on_file. cbn [file_obj arg].
  destruct (TextIO.readline f) as [line f'] eqn:Hread.
  destruct (length line =? 0) eqn:Hlen; [discriminate|].
  apply Nat.eqb_neq in Hlen.
  assert (Hne : line <> []) by (intros ->; cbn in Hlen; lia).
  destruct (readline_progress f f' line Hread Hne) as (Hc & Hp & Hlt).
  rewrite bind_run. unfold lift_result. fold (parse self line).
  pose proof (parse_not_loop_bound self line) as Hparse.
  destruct (parse self line) as [found|e]; [|not_bound Hparse].
  rewrite bind_run.
  pose proof (IH (State f' w)) as Hrest. cbn [file_obj] in Hrest.
  destruct (entries_loop fuel self (State f' w)) as [[rest|e] s1];
    [discriminate|].
  cbn in *. intros [= ->]. apply Hrest; [|reflexivity].
  rewrite Hc, Hp. destruct line; [congruence|]. cbn [length]. lia.
Qed.

(** [entries] never reaches the bound of its loop. *)
Lemma entries_total (self : t) (s : state) :
  fst (entries self s) <> Raise LoopBound.
Proof.
  unfold entries. rewrite bind_run, loop_bound_run.
  apply entries_loop_within_bound. lia.
Qed.

(** With the cursor at the end of the stream the scan of [update] reads
    nothing, whatever the stream holds: [update] is [append]. *)
Lemma update_at_end_is_append (self : t) (s : state) :
  TextIO.position (file_obj s) = length (TextIO.content (file_obj s)) ->
  update self s = append self s.
Proof.
  destruct s as [[text p] w]. cbn [file_obj TextIO.content TextIO.position].
  intros ->. unfold update. rewrite bind_run, hash_type_run. cbn [arg].
  rewrite (append_cases self (State (TextIO.make text (length text)) w)).
  cbv zeta. cbn [arg file_obj TextIO.content TextIO.position].
  destruct (bool_decide _) eqn:Hty; [|reflexivity]. cbn [negb].
  rewrite bind_run, tell_run, bind_run, loop_bound_run, bind_run.
  cbn [update_loop file_obj TextIO.content TextIO.position].
  rewrite bind_run. unfold readline, on_file, TextIO.readline.
  cbn [file_obj arg TextIO.content TextIO.position].
  rewrite drop_all. cbn [span app length Nat.eqb]. rewrite Nat.add_0_r.
  unfold mret, M_ret. rewrite bind_run, append_cases. cbv zeta.
  cbn [arg file_obj TextIO.content TextIO.position]. rewrite Hty.
  destruct (HashEntry.__str__ w) as [[line|e] w']; reflexivity.
Qed.

(** *** A scan with [entries] reads the lines [readlines] reads *)

Lemma split_lines_tail (body cur : str) :
  forallb (fun c => negb (is_LF c)) body = true ->
  TextIO.split_lines cur body =
    match rev cur ++ body with [] => [] | l => [l] end.
Proof.
  revert cur. induction body as [|c body IH]; intros cur Hlf.
  - cbn. rewrite app_nil_r. destruct cur as [|x cur]; [reflexivity|].
    cbn. destruct (rev cur ++ [x]) eqn:E; [|reflexivity].
    destruct (rev cur); discriminate.
  - cbn in Hlf. apply andb_prop in Hlf as [Hc Hlf].
    apply negb_true_iff in Hc. cbn. rewrite Hc, (IH _ Hlf). cbn.
    rewrite <- app_assoc. reflexivity.
Qed.

Lemma split_lines_complete (body rest cur : str) :
  forallb (fun c => negb (is_LF c)) body = true ->
  TextIO.split_lines cur (body ++ LF :: rest) =
    (rev cur ++ body ++ [LF]) :: TextIO.split_lines [] rest.
Proof.
  revert cur. induction body as [|c body IH]; intros cur Hlf.
  - reflexivity.
  - cbn in Hlf. apply andb_prop in Hlf as [Hc Hlf].
    apply negb_true_iff in Hc. cbn. rewrite Hc, (IH _ Hlf). cbn.
    rewrite <- app_assoc. reflexivity.
Qed.

Lemma readline_split (f f' : TextIO.t) (line : str) :
  TextIO.readline f = (line, f') ->
  line <> [] ->
  TextIO.split_lines [] (drop (TextIO.position f) (TextIO.content f)) =
    line :: TextIO.split_lines []
              (drop (TextIO.position f + length line) (TextIO.content f)).
Proof.
  unfold TextIO.readline.
  destruct (span _ _) as [body tail] eqn:Hs. intros [= <- <-] Hne.
  apply span_spec in Hs as (Hrest & Hbody & Htail).
  rewrite <- drop_drop, Hrest.
  destruct tail as [|c tail].
  - rewrite app_nil_r, drop_all, (split_lines_tail body [] Hbody).
    cbn. destruct body; [congruence | reflexivity].
  - apply negb_false_iff in Htail. unfold is_LF in Htail.
    apply Ascii.eqb_eq in Htail. subst c.
    rewrite (split_lines_complete body tail [] Hbody). cbn [rev app].
    f_equal.
    change (body ++ LF :: tail) with (body ++ [LF] ++ tail).
    rewrite app_assoc, drop_app_length. reflexivity.
Qed.

Lemma readline_at_end (f f' : TextIO.t) :
  TextIO.readline f = ([], f') ->
  drop (TextIO.position f) (TextIO.content f) = []
  /\ f' = TextIO.make (TextIO.content f) (TextIO.position f).
Proof.
  unfold TextIO.readline.
  destruct (span _ _) as [body tail] eqn:Hs.
  apply span_spec in Hs as (Hrest & _ & _). rewrite Hrest.
  destruct tail as [|c tail].
  - intros [= -> <-]. rewrite Nat.add_0_r. auto.
  - intros [= H _]. destruct body; discriminate.
Qed.

Lemma entries_loop_reads_lines (self : t) (fuel : nat) :
  forall (f : TextIO.t) (w : HashEntry.world) (es : list HashEntry.t),
  length (TextIO.content f) - TextIO.position f < fuel ->
  parse_lines self (fst (TextIO.readlines f)) = Return es ->
  entries_loop fuel self (State f w) =
    (Return es, State (snd (TextIO.readlines f)) w).
Proof.
  unfold TextIO.readlines. cbn [fst snd].
  induction fuel as [|fuel IH]; intros f w es Hfuel Hparse; [lia|].
  cbn [entries_loop]. rewrite bind_run. unfold readline, on_file.
  cbn [file_obj arg].
  destruct (TextIO.readline f) as [line f'] eqn:Hread.
  destruct line as [|c line].
  - apply readline_at_end in Hread as [Hrest ->].
    rewrite Hrest in Hparse. cbn in Hparse. injection Hparse as <-.
    cbn. unfold mret, M_ret. do 3 f_equal.
    destruct (decide (TextIO.position f < length (TextIO.content f)))
      as [Hlt|Hge]; [|lia].
    apply (f_equal length) in Hrest. rewrite length_drop in Hrest.
    cbn in Hrest. lia.
  - assert (Hne : c :: line <> []) by discriminate.
    destruct (readline_progress f f' _ Hread Hne) as (Hc & Hp & Hlt).
    rewrite (readline_split f f' _ Hread Hne) in Hparse.
    cbn [parse_lines] in Hparse. cbn [length Nat.eqb].
    rewrite bind_run. unfold lift_result. fold (parse self (c :: line)).
    destruct (parse self (c :: line)) as [found|e]; [|discriminate].
    destruct (parse_lines self _) as [rest|e] eqn:Hrest; [|discriminate].
    injection Hparse as <-.
    rewrite bind_run, (IH f' w rest).
    + cbn. unfold mret, M_ret. rewrite Hc, Hp. do 3 f_equal.
      assert (TextIO.position f + length (c :: line)
              <= length (TextIO.content f)); [|lia].
      pose proof (readline_split f f' _ Hread Hne) as Hsplit.
      destruct (decide (TextIO.position f + length (c :: line)
                        <= length (TextIO.content f))) as [|Hgt]; [assumption|].
      exfalso. unfold TextIO.readline in Hread.
      destruct (span _ _) as [body tail] eqn:Hs.
      apply span_spec in Hs as (Hdrop & _ & _).
      apply (f_equal length) in Hdrop.
      rewrite length_drop, length_app in Hdrop.
      injection Hread as Hline _.
      assert (length (c :: line) <= length body + length tail); [|lia].
      rewrite <- Hline. destruct tail; [lia|]. rewrite length_app. cbn. lia.
    + rewrite Hc, Hp. cbn [length]. lia.
    + rewrite Hc, Hp. exact Hrest.
Qed.

(** When every line from the cursor on parses, [entries] returns their
    entries in order and leaves the cursor at the end. *)
Lemma entries_reads_lines (self : t) (s : state) (es : list HashEntry.t) :
  parse_lines self (fst (TextIO.readlines (file_obj s))) = Return es ->
  entries self s =
    (Return es, State (snd (TextIO.readlines (file_obj s))) (arg s)).
Proof.
  destruct s as [f w]. intros Hparse. unfold entries.
  rewrite bind_run, loop_bound_run.
  apply entries_loop_reads_lines; [cbn; lia | exact Hparse].
Qed.

Lemma entries_loop_result (self : t) (fuel : nat) :
  forall (f : TextIO.t) (w : HashEntry.world),
  length (TextIO.content f) - TextIO.position f < fuel ->
  fst (entries_loop fuel self (State f w)) =
    parse_lines self (fst (TextIO.readlines f)).
Proof.
  unfold TextIO.readlines. cbn [fst].
  induction fuel as [|fuel IH]; intros f w Hfuel; [lia|].
  cbn [entries_loop]. rewrite bind_run. unfold readline, on_file.
  cbn [file_obj arg].
  destruct (TextIO.readline f) as [line f'] eqn:Hread.
  destruct line as [|c line].
  - apply readline_at_end in Hread as [-> _]. reflexivity.
  - assert (Hne : c :: line <> []) by discriminate.
    destruct (readline_progress f f' _ Hread Hne) as (Hc & Hp & Hlt).
    pose proof (IH f' w) as IHf. rewrite Hc, Hp in IHf.
    rewrite (readline_split f f' _ Hread Hne).
    cbn [parse_lines]. change (length (c :: line) =? 0) with false.
    cbv beta iota. rewrite bind_run. unfold lift_result. fold (parse self (c :: line)).
    destruct (parse self (c :: line)) as [found|e]; [|reflexivity].
    rewrite bind_run, <- IHf by (cbn [length]; lia).
    destruct (entries_loop fuel self (State f' w)) as [[rest|e] s1];
      reflexivity.
Qed.

(** What a scan with [entries] returns or raises is what parsing the
    lines from the cursor on, one after the other, returns or raises. *)
Lemma entries_result (self : t) (s : state) :
  fst (entries self s) =
    parse_lines self (fst (TextIO.readlines (file_obj s))).
Proof.
  destruct s as [f w]. unfold entries. rewrite bind_run, loop_bound_run.
  apply entries_loop_result. cbn. lia.
Qed.


End Facts.

Import Demo.

(** C1 on the code: with the cursor at the end of a stream that holds the
    line of path [f], [update] reads no line: it leaves that line as it was
    and appends a second line for [f].  From offset 0 the same call
    overwrites the digest in place. *)
Lemma update_scans_from_cursor :
  let e := entry "cd" "f" false in
  update stream (at_cursor (manifest [py "ab  f"]) 6 e) =
    (Return (), at_cursor (manifest [py "ab  f"; py "cd  f"]) 6 e)
  /\ update stream (at_cursor (manifest [py "ab  f"]) 0 e) =
       (Return (), at_cursor (manifest [py "cd  f"]) 0 e).
Proof. split; reflexivity. Qed.


(** C6 on the code.  With the cursor just after the line of path [f], as
    it is when that line was just read, [update] does not meet the line:
    the stored digest stays and the stream grows by a second line for
    [f].  With the line of [f] indented by one space, which the parser
    reads as digest [ab] and path [f], [update] writes the new digest
    over the space and the first digit: the character before the digest
    is changed, the digit [b] is kept, and the line now reads as digest
    [cdb]. *)
Lemma update_grows_or_writes_outside_digest :
  let e := entry "cd" "f" false in
  let indented := [SP] ++ py "ab  f" ++ [LF] in
  update stream (at_cursor (manifest [py "ef  f"; py "ab  g"]) 6 e) =
    (Return (),
     at_cursor (manifest [py "ef  f"; py "ab  g"; py "cd  f"]) 6 e)
  /\ parse stream indented =
       Return (HashEntry.make (py "ab") sha256_obj indented false (py "f"))
  /\ update stream (at_cursor indented 0 e) =
       (Return (), at_cursor (manifest [py "cdb  f"]) 0 e)
  /\ parse stream (manifest [py "cdb  f"]) =
       Return (HashEntry.make (py "cdb") sha256_obj (manifest [py "cdb  f"])
                 false (py "f")).
Proof. repeat split; reflexivity. Qed.

Lemma mismatch_raises_unchanged_witness :
  let s := at_cursor (manifest [py "ab  g"]) 2
             (HashEntry.make (py "cd") md5_obj [] false (py "f")) in
  let e := ValueError (py "Expected hash type sha256, but received md5") in
  append stream s = (Raise e, s) /\ update stream s = (Raise e, s).
Proof.
  apply (mismatch_raises_unchanged stream
           (at_cursor (manifest [py "ab  g"]) 2
              (HashEntry.make (py "cd") md5_obj [] false (py "f")))).
  vm_compute. discriminate.
Defined.


Lemma update_overwrites_digest_witness :
  let e := entry "cd" "f" false in
  let s := at_cursor (manifest [py "ab  g"; py "ef  f"; py "ab  h"]) 0 e in
  exists f' : TextIO.t,
    update stream s = (Return (), State f' (no_reads e))
    /\ TextIO.content f' = manifest [py "ab  g"; py "cd  f"; py "ab  h"]
    /\ length (TextIO.content f') = 18
    /\ TextIO.position f' = 0.
Proof.
  apply (update_overwrites_digest stream
           (at_cursor (manifest [py "ab  g"; py "ef  f"; py "ab  h"]) 0
              (entry "cd" "f" false))
           [] [py "ab  g" ++ [LF]] (py "ef") (py "  f" ++ [LF])
           (py "ab  h" ++ [LF])
           (HashEntry.make (py "ef") sha256_obj (py "ef  f" ++ [LF]) false
              (py "f"))
           (py "cd") (no_reads (entry "cd" "f" false)));
    try reflexivity.
  constructor; [|constructor].
  split; [reflexivity|].
  eexists. split; [reflexivity|]. vm_compute. discriminate.
Defined.

End OpenHashFileFacts.

(** ** HashFile *)

Module HashFileFacts.
Import HashFile.
Section Facts.
Context {hl : Hashlib} {fs : Filesystem}.

Lemma init_consistent (path : str) (hash_type : option str) (h : t)
    (w : Process.t) :
  __init__ path hash_type = Return h -> consistent (State h w).
Proof.
  unfold __init__. destruct (negb _); [discriminate|].
  intros [= <-]. reflexivity.
Qed.

Lemma enter_counts (s s' : state) (r : result _OpenHashFile.t) :
  __enter__ s = (r, s') -> _count (self s') = (_count (self s) + 1)%Z.
Proof.
  destruct s as [[c file ht path] w]. unfold __enter__, open. run.
  destruct file as [f|]; run; [intros [= <- <-]; reflexivity|].
  destruct (Process.open path w) as [[fd w']|]; cbn; intros [= <- <-];
    reflexivity.
Qed.

Lemma enter_held (s : state) (f : _OpenHashFile.t) :
  _file (self s) = Some f ->
  __enter__ s = (Return f, set_count (fun n => (n + 1)%Z) s).
Proof.
  destruct s as [[c file ht path] w]. cbn [self _file]. intros ->.
  reflexivity.
Qed.

Lemma enter_first (s : state) (text : str) :
  _file (self s) = None ->
  Process.disk (process s) !! filepath (self s) = Some text ->
  let f := _OpenHashFile.make (length (Process.heap (process s)))
             (_hash_type (self s)) None in
  __enter__ s =
    (Return f,
     State (make (_count (self s) + 1) (Some f) (_hash_type (self s))
              (filepath (self s)))
           (Process.make (Process.disk (process s))
              (Process.heap (process s)
               ++ [Process.FileObject (filepath (self s))
                     (TextIO.make text 0) false]))).
Proof.
  destruct s as [[c file ht path] [disk heap]].
  cbn [self process _file filepath _hash_type _count Process.disk Process.heap].
  intros -> Hdisk. unfold __enter__, open, Process.open. run.
  rewrite Hdisk. reflexivity.
Qed.

Lemma exit_held (s : state) (f : _OpenHashFile.t) :
  _file (self s) = Some f ->
  __exit__ s =
    (Return (),
     if (_count (self s) - 1 =? 0)%Z
     then State (make (_count (self s) - 1) None (_hash_type (self s))
                   (filepath (self s)))
                (_OpenHashFile.close f (process s))
     else set_count (fun n => (n - 1)%Z) s).
Proof.
  destruct s as [[c file ht path] w]. cbn [self _file]. intros ->.
  unfold __exit__. run. destruct (c - 1 =? 0)%Z; reflexivity.
Qed.

Lemma exit_released (s : state) :
  _file (self s) = None -> __exit__ s = (Return (), s).
Proof.
  destruct s as [[c file ht path] w]. cbn [self _file]. intros ->.
  reflexivity.
Qed.

Lemma closed_after_close (f : _OpenHashFile.t) (w : Process.t) :
  Process.is_open (_OpenHashFile._file_obj f) (_OpenHashFile.close f w) = false.
Proof.
  unfold Process.is_open, _OpenHashFile.close, Process.close.
  cbn [Process.heap]. rewrite list_lookup_alter_eq.
  destruct (Process.heap w !! _OpenHashFile._file_obj f); reflexivity.
Qed.

(** [__enter__] that returns and [__exit__] keep a handle consistent. *)
Lemma enter_keeps_consistent (s s' : state) (f : _OpenHashFile.t) :
  consistent s -> __enter__ s = (Return f, s') -> consistent s'.
Proof.
  destruct s as [[c file ht path] [disk heap]]. unfold consistent.
  cbn [self process _file _count]. intros Hs.
  destruct file as [g|].
  - destruct Hs as [Hc Hopen]. cbn. intros [= <- <-]. cbn.
    split; [lia | exact Hopen].
  - subst c. unfold __enter__, open, Process.open. run.
    destruct (disk !! path) as [text|]; [|discriminate]. cbn.
    intros [= <- <-]. cbn. split; [lia|].
    unfold stream_open, Process.is_open. cbn.
    rewrite list_lookup_middle by reflexivity. reflexivity.
Qed.

Lemma exit_keeps_consistent (s : state) :
  consistent s -> consistent (snd (__exit__ s)).
Proof.
  destruct s as [[c file ht path] w]. unfold consistent.
  cbn [self process _file _count]. intros Hs.
  destruct file as [f|]; [|rewrite exit_released by reflexivity; exact Hs].
  destruct Hs as [Hc Hopen].
  rewrite (exit_held (State (make c (Some f) ht path) w) f eq_refl).
  cbn [self _count snd]. destruct (Z.eqb_spec (c - 1) 0) as [Hz|Hz].
  - exact Hz.
  - cbn. split; [lia | exact Hopen].
Qed.

(** When [open] fails, [__enter__] raises after it has counted: the
    counter is one more and the handle holds no stream. *)
Lemma enter_failed_open (s : state) :
  _file (self s) = None ->
  Process.disk (process s) !! filepath (self s) = None ->
  __enter__ s =
    (Raise (OSError (filepath (self s))), set_count (fun n => (n + 1)%Z) s).
Proof.
  destruct s as [[c file ht path] [disk heap]].
  cbn [self process _file filepath Process.disk]. intros -> Hdisk.
  unfold __enter__, open, Process.open. run. rewrite Hdisk. reflexivity.
Qed.

(** Counting on a consistent handle: [__enter__] adds one to the counter; while
    the counter is above zero it returns the stream the handle holds and
    touches no file object; [__exit__] then takes one from the counter,
    and the stream is closed after it exactly when the counter is back at
    zero; the handle stays consistent.  From a counter at zero: acquiring
    twice gives the same stream twice, the first release leaves it open
    and the second closes it. *)
Theorem handle_counts_holders (s : state) :
  consistent s ->
  (forall (r : result _OpenHashFile.t) (s' : state),
     __enter__ s = (r, s') -> _count (self s') = (_count (self s) + 1)%Z)
  /\ ((0 < _count (self s))%Z ->
      exists (f : _OpenHashFile.t) (s' : state),
        _file (self s) = Some f
        /\ __enter__ s = (Return f, s')
        /\ _file (self s') = Some f
        /\ process s' = process s
        /\ consistent s')
  /\ ((0 < _count (self s))%Z ->
      exists (f : _OpenHashFile.t) (s' : state),
        _file (self s) = Some f
        /\ __exit__ s = (Return (), s')
        /\ _count (self s') = (_count (self s) - 1)%Z
        /\ (stream_open f s' = false <-> _count (self s') = 0%Z)
        /\ consistent s')
  /\ (forall text : str,
      _count (self s) = 0%Z ->
      Process.disk (process s) !! filepath (self s) = Some text ->
      exists (f : _OpenHashFile.t) (s1 s2 s3 s4 : state),
        __enter__ s = (Return f, s1)
        /\ __enter__ s1 = (Return f, s2)
        /\ process s2 = process s1
        /\ __exit__ s2 = (Return (), s3)
        /\ stream_open f s3 = true
        /\ __exit__ s3 = (Return (), s4)
        /\ stream_open f s4 = false
        /\ _count (self s4) = 0%Z
        /\ _file (self s4) = None).
Proof.
  intros Hs. split; [intros r s'; apply enter_counts|].
  destruct s as [[c file ht path] w]. unfold consistent in Hs.
  cbn [self process _file _count filepath] in *.
  split; [|split].
  - intros Hc. destruct file as [f|]; [|lia]. destruct Hs as [_ Hopen].
    eexists f, _. split; [reflexivity|]. split; [apply enter_held; reflexivity|].
    unfold consistent, set_count. cbn. repeat split; try exact Hopen. lia.
  - intros Hc. destruct file as [f|]; [|lia]. destruct Hs as [_ Hopen].
    eexists f, _. split; [reflexivity|].
    split; [apply (exit_held _ f); reflexivity|]. cbn [self _count].
    destruct (Z.eqb_spec (c - 1) 0) as [Hz|Hz].
    + cbn. split; [reflexivity|]. split; [|exact Hz].
      unfold stream_open. cbn [process]. split; [intros _; exact Hz|].
      intros _. apply closed_after_close.
    + unfold consistent, set_count, stream_open in *. cbn in *.
      split; [reflexivity|]. split.
      * rewrite Hopen. split; [discriminate | intros; lia].
      * split; [lia | exact Hopen].
  - intros text Hc Hdisk. destruct file as [f|]; [lia|]. subst c.
    destruct w as [disk heap]. cbn [Process.disk] in Hdisk.
    set (f := _OpenHashFile.make (length heap) ht None).
    set (obj := Process.FileObject path (TextIO.make text 0) false).
    set (w1 := Process.make disk (heap ++ [obj])).
    assert (Hopen : Process.is_open (length heap) w1 = true).
    { unfold Process.is_open, w1. cbn [Process.heap].
      rewrite list_lookup_middle by reflexivity. reflexivity. }
    exists f, (State (make 1 (Some f) ht path) w1),
      (State (make 2 (Some f) ht path) w1),
      (State (make 1 (Some f) ht path) w1),
      (State (make 0 None ht path) (_OpenHashFile.close f w1)).
    split.
    { exact (enter_first (State (make 0 None ht path) (Process.make disk heap))
               text eq_refl Hdisk). }
    split; [reflexivity|]. split; [reflexivity|]. split; [reflexivity|].
    split; [exact Hopen|]. split; [reflexivity|].
    split; [apply closed_after_close|]. split; reflexivity.
Qed.

(** C10: [__exit__] on a handle that holds no stream returns and leaves
    the handle (its counter, too) and every file object as they were. *)
Theorem exit_without_stream (s : state) :
  _file (self s) = None -> __exit__ s = (Return (), s).
Proof. apply exit_released. Qed.

End Facts.

Import Demo.

Lemma handle_counts_holders_witness :
  (exists (f : _OpenHashFile.t) (s1 s2 s3 s4 : state),
     __enter__ (State handle fresh_process) = (Return f, s1)
     /\ __enter__ s1 = (Return f, s2)
     /\ process s2 = process s1
     /\ __exit__ s2 = (Return (), s3)
     /\ stream_open f s3 = true
     /\ __exit__ s3 = (Return (), s4)
     /\ stream_open f s4 = false
     /\ _count (self s4) = 0%Z
     /\ _file (self s4) = None)
  /\ (exists (f : _OpenHashFile.t) (s' : state),
        let s := State held_handle process_with_stream in
        _file (self s) = Some f
        /\ __exit__ s = (Return (), s')
        /\ _count (self s') = (_count (self s) - 1)%Z
        /\ (stream_open f s' = false <-> _count (self s') = 0%Z)
        /\ consistent s').
Proof.
  split.
  - apply (proj2 (proj2 (proj2
             (handle_counts_holders (State handle fresh_process) eq_refl)))
             (manifest [py "ab  f"])); reflexivity.
  - apply (proj1 (proj2 (proj2
             (handle_counts_holders (State held_handle process_with_stream)
                (conj eq_refl eq_refl))))).
    reflexivity.
Defined.

Lemma exit_without_stream_witness :
  __exit__ (State handle fresh_process) = (Return (), State handle fresh_process).
Proof. apply (exit_without_stream (State handle fresh_process)). reflexivity. Defined.

(** C9 on the code.  The file of the handle does not exist: [__enter__]
    raises, and the handle is left with its counter at one and no stream;
    an [__exit__] then does not take the count back.  Once the file
    exists, the next [__enter__], called with the counter above zero,
    opens the file, and the [__exit__] that matches it brings the counter
    to one, not zero: the stream is still open when the one holder has
    released it. *)
Lemma failed_enter_leaves_stream_open :
  let absent := Process.make (∅ : gmap str str) [] in
  let counted := make 1 None (py "sha256") (py "sha256sums") in
  let twice := make 2 (Some stream) (py "sha256") (py "sha256sums") in
  __enter__ (State handle absent) =
    (Raise (OSError (py "sha256sums")), State counted absent)
  /\ __exit__ (State counted absent) = (Return (), State counted absent)
  /\ __enter__ (State counted fresh_process) =
       (Return stream, State twice process_with_stream)
  /\ __exit__ (State twice process_with_stream) =
       (Return (), State held_handle process_with_stream)
  /\ stream_open stream (State held_handle process_with_stream) = true
  /\ _count held_handle = 1%Z.
Proof. repeat split; reflexivity. Qed.

End HashFileFacts.

(* ===================================================================== *)
(** * Part III: further properties of the code                            *)
(* ===================================================================== *)

(** ** White space around a line *)

Lemma forallb_rev (p : ascii -> bool) (s : str) :
  forallb p (rev s) = forallb p s.
Proof.
  induction s as [|c s IH]; [reflexivity|].
  cbn. rewrite forallb_app, IH. cbn. rewrite andb_true_r. apply andb_comm.
Qed.

Lemma lstrip_app_space (a s : str) :
  forallb isspace a = true -> lstrip (a ++ s) = lstrip s.
Proof.
  unfold lstrip. induction a as [|c a IH]; [reflexivity|].
  cbn. intros [Hc Ha]%andb_prop. rewrite Hc.
  specialize (IH Ha). destruct (span isspace (a ++ s)). exact IH.
Qed.

Lemma lstrip_all_space (s : str) :
  forallb isspace s = true -> lstrip s = [].
Proof. intros H. unfold lstrip. rewrite (span_all _ _ H). reflexivity. Qed.

Lemma lstrip_cases (s : str) :
  (forallb isspace s = true /\ lstrip s = [])
  \/ (exists (a : str) (c : ascii) (r : str),
        s = a ++ c :: r /\ forallb isspace a = true /\ isspace c = false
        /\ lstrip s = c :: r).
Proof.
  unfold lstrip. destruct (span isspace s) as [a [|c r]] eqn:Hs;
    apply span_spec in Hs as (-> & Ha & Hc).
  - left. rewrite app_nil_r. auto.
  - right. exists a, c, r. auto.
Qed.

Lemma rstrip_app_space (s b : str) :
  forallb isspace b = true -> rstrip (s ++ b) = rstrip s.
Proof.
  intros Hb. unfold rstrip. rewrite rev_app_distr.
  rewrite lstrip_app_space by (rewrite forallb_rev; exact Hb). reflexivity.
Qed.

Lemma strip_app_space (a s b : str) :
  forallb isspace a = true -> forallb isspace b = true ->
  strip (a ++ s ++ b) = strip s.
Proof.
  intros Ha Hb. unfold strip. rewrite (lstrip_app_space a _ Ha).
  destruct (lstrip_cases s) as [[Hs Hl]|(x & c & r & -> & Hx & Hc & Hl)].
  - rewrite Hl, lstrip_all_space; [reflexivity|].
    rewrite forallb_app, Hs, Hb. reflexivity.
  - rewrite Hl. rewrite <- app_assoc. cbn [app].
    rewrite (lstrip_app_space x _ Hx), (lstrip_id c _ Hc).
    change (c :: r ++ b) with ((c :: r) ++ b).
    apply rstrip_app_space, Hb.
Qed.

(** ** HashEntry, further *)

Module HashEntryMore.
Import HashEntry.
Section Facts.
Context {hl : Hashlib} {fs : Filesystem}.

(** X1: [from_str] with the default splitter accepts a line whose stripped
    form is hex digits, white space (any amount, of any kind) and a rest
    that starts with a character other than white space and holds no line
    feed: the digest is taken as it stands, a leading [*] of the rest makes
    the entry binary and is dropped from the path, and the line is kept. *)
Theorem from_str_accepts (line : str) (hash_type : option str) (h : HASH)
    (digest blank : str) (c : ascii) (rest : str) :
  strip line = digest ++ blank ++ c :: rest ->
  digest <> [] -> forallb is_hex digest = true ->
  blank <> [] -> forallb isspace blank = true ->
  isspace c = false ->
  forallb (fun x => negb (is_LF x)) (c :: rest) = true ->
  algorithms_available (default DEFAULT_HASH_TYPE hash_type) = true ->
  hashlib_new (default DEFAULT_HASH_TYPE hash_type) = Some h ->
  from_str line None hash_type =
    Return (make digest h line (Ascii.eqb c STAR)
              (if Ascii.eqb c STAR then rest else c :: rest)).
Proof.
  intros Hstrip Hd Hhex Hb Hblank Hc Hlf Hav Hnew.
  unfold from_str, _default_line_split. cbn [default].
  rewrite Hstrip, (HashEntryFacts.findall_line digest blank rest c) by assumption.
  cbn [fst snd startswith_star SplitResult.file SplitResult.binary
       SplitResult.hash].
  unfold __init__. rewrite Hav, Hnew. cbn [negb].
  destruct (Ascii.eqb c STAR); reflexivity.
Qed.

Lemma findall_no_digest (s : str) :
  no_digest_and_blank s = true -> re_findall s = [].
Proof.
  unfold no_digest_and_blank, re_findall.
  destruct (span is_hex s) as [d rest].
  destruct d as [|x d]; [destruct (span isspace rest); reflexivity|].
  destruct rest as [|c rest]; [reflexivity|].
  intros Hc%negb_true_iff. cbn [span]. rewrite Hc. reflexivity.
Qed.

(** X2: a line whose stripped form does not start with a hex digit (the
    empty line, a path alone), has nothing after its hex digits (a digest
    alone) or has no white space after them is refused with
    [MalformedLineError] on the stripped line, whatever the hash type,
    supported or not. *)
Theorem from_str_rejects (line : str) (hash_type : option str) :
  no_digest_and_blank (strip line) = true ->
  from_str line None hash_type = Raise (MalformedLineError (strip line)).
Proof.
  intros H. unfold from_str, _default_line_split. cbn [default].
  rewrite (findall_no_digest _ H). reflexivity.
Qed.

Lemma from_str_padded (a line b : str) (hash_type : option str) :
  forallb isspace a = true -> forallb isspace b = true ->
  from_str (a ++ line ++ b) None hash_type =
    match from_str line None hash_type with
    | Return e =>
        Return (make (_hash_cache e) (_hash_obj e) (a ++ line ++ b)
                  (binary e) (filepath e))
    | Raise x => Raise x
    end.
Proof.
  intros Ha Hb. unfold from_str, _default_line_split. cbn [default].
  rewrite (strip_app_space a line b Ha Hb).
  destruct (re_findall (strip line)) as [|m more]; [reflexivity|].
  destruct (__init__ _ _ _); reflexivity.
Qed.

(** X3: white space before and after a line does not count: the stripped
    line is the same, and [from_str] returns the same entry but for the raw
    line it keeps, or raises the same exception. *)
Theorem from_str_ignores_outer_space (a line b : str)
    (hash_type : option str) :
  forallb isspace a = true -> forallb isspace b = true ->
  strip (a ++ line ++ b) = strip line
  /\ from_str (a ++ line ++ b) None hash_type =
       match from_str line None hash_type with
       | Return e =>
           Return (make (_hash_cache e) (_hash_obj e) (a ++ line ++ b)
                     (binary e) (filepath e))
       | Raise x => Raise x
       end.
Proof.
  intros Ha Hb. split.
  - apply strip_app_space; assumption.
  - apply from_str_padded; assumption.
Qed.

(** X4: when the target of an uncached entry cannot be opened, [hash] and
    [__str__] raise [OSError] and change nothing: the entry stays uncached,
    its hash object is not fed, no read is logged. *)
Theorem hash_unreadable_target (w : world) :
  _hash_cache (self w) = [] ->
  read_target (self w) = None ->
  hash w = (Raise (OSError (filepath (self w))), w)
  /\ __str__ w = (Raise (OSError (filepath (self w))), w)
  /\ cached w = (Return false, w).
Proof.
  destruct w as [[cache obj raw b p] log]. unfold read_target.
  cbn [self _hash_cache binary filepath]. intros -> Hread.
  assert (Hh : hash (World (make [] obj raw b p) log) =
               (Raise (OSError p), World (make [] obj raw b p) log)).
  { unfold hash, _hash, open_read.
    destruct b; run; rewrite Hread; reflexivity. }
  split; [exact Hh|]. split; [|reflexivity].
  rewrite HashEntryFacts.str_unfold, Hh. reflexivity.
Qed.

(** X5: after [hash_type] is set to another supported name on a cached
    entry, the entry reports the new hash type but [hash] and [__str__]
    still give the digest cached before, with no read. *)
Theorem type_change_keeps_stale_digest (w : world) (value : str) (h : HASH) :
  _hash_cache (self w) <> [] ->
  hash_type_of (self w) <> value ->
  hashlib_new value = Some h ->
  exists w' : world,
    set_hash_type (PyStr value) w = (Return (), w')
    /\ hash_type w' = (Return (hash_name h), w')
    /\ hash w' = (Return (_hash_cache (self w)), w')
    /\ __str__ w' =
         (Return (_hash_cache (self w) ++ [SP] ++ [marker (self w)]
                  ++ filepath (self w)), w')
    /\ reads w' = reads w.
Proof.
  destruct w as [[cache obj raw b p] log]. unfold hash_type_of.
  cbn [self _hash_cache _hash_obj filepath reads]. intros Hc Hne Hnew.
  exists (World (make cache h raw b p) log).
  split.
  { unfold set_hash_type. run. rewrite bool_decide_eq_false_2 by exact Hne.
    rewrite Hnew. reflexivity. }
  split; [reflexivity|].
  assert (Hh : hash (World (make cache h raw b p) log) =
               (Return cache, World (make cache h raw b p) log)).
  { apply (HashEntryFacts.hash_of_cached (World (make cache h raw b p) log)).
    exact Hc. }
  split; [exact Hh|]. split; [|reflexivity].
  rewrite HashEntryFacts.str_unfold, Hh. reflexivity.
Qed.

(** X6: printing an uncached entry whose target can be read hashes the
    target once and caches the digest: the entry is cached afterwards, and
    printing it again gives the same line without another read. *)
Theorem str_caches_digest (w : world) (data : bytes) :
  _hash_cache (self w) = [] ->
  read_target (self w) = Some data ->
  hexdigest (hash_update (_hash_obj (self w)) data) <> [] ->
  exists (line : str) (w1 : world),
    __str__ w = (Return line, w1)
    /\ line = hexdigest (hash_update (_hash_obj (self w)) data)
              ++ [SP] ++ [marker (self w)] ++ filepath (self w)
    /\ cached w1 = (Return true, w1)
    /\ __str__ w1 = (Return line, w1)
    /\ reads w1 = (filepath (self w), binary (self w)) :: reads w.
Proof.
  intros Hc Hr Hd.
  pose proof (HashEntryFacts.hash_of_uncached w data Hc Hr) as H1.
  cbv zeta in H1.
  eexists _, _. split.
  { rewrite HashEntryFacts.str_unfold, H1. reflexivity. }
  cbn [self _hash_cache filepath binary reads marker].
  split; [reflexivity|]. split.
  { unfold cached. run. rewrite bool_decide_eq_false_2 by exact Hd.
    reflexivity. }
  split; [|reflexivity].
  rewrite HashEntryFacts.str_unfold, HashEntryFacts.hash_of_cached
    by exact Hd.
  reflexivity.
Qed.

(** X7: an entry made by [from_str] with the default splitter prints
    without touching any file, and parsing the printed line gives an entry
    with the same path, mode and digest: what was read from a hash file
    can be written back and read again. *)
Theorem parse_print_parse (line : str) (hash_type : option str) (e : t)
    (log : list (str * bool)) :
  from_str line None hash_type = Return e ->
  exists (text : str) (e' : t),
    __str__ (World e log) = (Return text, World e log)
    /\ from_str text None hash_type = Return e'
    /\ filepath e' = filepath e
    /\ binary e' = binary e
    /\ _hash_cache e' = _hash_cache e.
Proof.
  intros Hparse.
  pose proof (HashEntryFacts.parsed_representable line hash_type e Hparse)
    as Hrep.
  assert (Hinit : exists h : HASH,
            algorithms_available (default DEFAULT_HASH_TYPE hash_type) = true
            /\ hashlib_new (default DEFAULT_HASH_TYPE hash_type) = Some h).
  { unfold from_str, __init__ in Hparse. cbn [default] in Hparse.
    destruct (_default_line_split line); [|discriminate].
    destruct (algorithms_available _); [|discriminate].
    destruct (hashlib_new _) as [h|]; [|discriminate]. eauto. }
  destruct Hinit as (h & Hav & Hnew).
  assert (Hcached : _hash_cache e <> []).
  { unfold representable in Hrep. repeat (apply andb_prop in Hrep as [Hrep _]).
    apply negb_true_iff, bool_decide_eq_false in Hrep. exact Hrep. }
  eexists _, _. split.
  { rewrite HashEntryFacts.str_unfold,
      (HashEntryFacts.hash_of_cached (World e log) Hcached). reflexivity. }
  cbn [self]. unfold from_str. cbn [default].
  rewrite (HashEntryFacts.default_split_of_line e Hrep). unfold __init__.
  cbn [SplitResult.file SplitResult.binary SplitResult.hash].
  rewrite Hav, Hnew. cbn. auto.
Qed.

End Facts.

Import Demo.

Lemma from_str_accepts_witness :
  from_str ([SP] ++ py "aB" ++ [SP; "009"%char] ++ py "*my file" ++ [LF])
    None None =
  Return (make (py "aB") sha256_obj
            ([SP] ++ py "aB" ++ [SP; "009"%char] ++ py "*my file" ++ [LF])
            true (py "my file")).
Proof.
  apply (from_str_accepts
           ([SP] ++ py "aB" ++ [SP; "009"%char] ++ py "*my file" ++ [LF])
           None sha256_obj (py "aB") [SP; "009"%char] STAR (py "my file"));
    first [reflexivity | discriminate].
Defined.

Lemma from_str_rejects_witness :
  from_str (py "ab" ++ [LF]) None (Some (py "crc32")) =
    Raise (MalformedLineError (py "ab"))
  /\ from_str [LF] None None = Raise (MalformedLineError [])
  /\ from_str (py "/path/to/f" ++ [LF]) None None =
       Raise (MalformedLineError (py "/path/to/f")).
Proof.
  split; [|split].
  - apply (from_str_rejects (py "ab" ++ [LF]) (Some (py "crc32"))). reflexivity.
  - apply (from_str_rejects [LF] None). reflexivity.
  - apply (from_str_rejects (py "/path/to/f" ++ [LF]) None). reflexivity.
Defined.

Lemma from_str_ignores_outer_space_witness :
  strip ([SP; SP] ++ py "ab  f" ++ [SP; LF]) = strip (py "ab  f")
  /\ from_str ([SP; SP] ++ py "ab  f" ++ [SP; LF]) None None =
       Return (make (py "ab") sha256_obj ([SP; SP] ++ py "ab  f" ++ [SP; LF])
                 false (py "f")).
Proof.
  exact (from_str_ignores_outer_space [SP; SP] (py "ab  f") [SP; LF] None
           eq_refl eq_refl).
Defined.

Lemma hash_unreadable_target_witness :
  let w := no_reads (entry EmptyString "missing.csv" false) in
  hash w = (Raise (OSError (py "missing.csv")), w)
  /\ __str__ w = (Raise (OSError (py "missing.csv")), w)
  /\ cached w = (Return false, w).
Proof.
  apply (hash_unreadable_target (no_reads (entry EmptyString "missing.csv" false)));
    reflexivity.
Defined.

Lemma type_change_keeps_stale_digest_witness :
  exists w' : world,
    let w := no_reads (entry "abcd" "f" false) in
    set_hash_type (PyStr (py "md5")) w = (Return (), w')
    /\ hash_type w' = (Return (py "md5"), w')
    /\ hash w' = (Return (py "abcd"), w')
    /\ __str__ w' = (Return (py "abcd  f"), w')
    /\ reads w' = [].
Proof.
  apply (type_change_keeps_stale_digest (no_reads (entry "abcd" "f" false))
           (py "md5") md5_obj).
  - discriminate.
  - vm_compute. discriminate.
  - reflexivity.
Defined.

Lemma str_caches_digest_witness :
  exists (line : str) (w1 : world),
    let w := no_reads (entry EmptyString "data.csv" true) in
    __str__ w = (Return line, w1)
    /\ line = py "4107 *data.csv"
    /\ cached w1 = (Return true, w1)
    /\ __str__ w1 = (Return line, w1)
    /\ reads w1 = [(py "data.csv", true)].
Proof.
  apply (str_caches_digest (no_reads (entry EmptyString "data.csv" true)) data_csv).
  - reflexivity.
  - reflexivity.
  - vm_compute. discriminate.
Defined.

Lemma parse_print_parse_witness :
  exists (text : str) (e' : t),
    let e := make (py "aB") sha256_obj (py " aB   *my file" ++ [LF]) true
               (py "my file") in
    __str__ (no_reads e) = (Return text, no_reads e)
    /\ from_str text None None = Return e'
    /\ filepath e' = filepath e
    /\ binary e' = binary e
    /\ _hash_cache e' = _hash_cache e.
Proof.
  exact (parse_print_parse (py " aB   *my file" ++ [LF]) None
           (make (py "aB") sha256_obj (py " aB   *my file" ++ [LF]) true
              (py "my file"))
           [] eq_refl).
Defined.

End HashEntryMore.

(** ** _OpenHashFile, further *)

Module OpenHashFileMore.
Import _OpenHashFile.
Import Calls.
Section Facts.
Context {hl : Hashlib} {fs : Filesystem}.

Lemma needs_newline_after_line (s : str) :
  TextIO.needs_newline (s ++ [LF]) = false.
Proof. unfold TextIO.needs_newline. rewrite last_snoc. reflexivity. Qed.

(** X8: two appends in a row write two lines, one after the other: the
    second finds the line feed the first wrote and adds none; the cursor is
    where it was before the first. *)
Theorem append_twice (self : t) (s : state) (t1 t2 : str)
    (w1 w2 w2' : HashEntry.world) :
  HashEntry.hash_type_of (HashEntry.self (arg s)) = hash_type self ->
  HashEntry.__str__ (arg s) = (Return t1, w1) ->
  HashEntry.hash_type_of (HashEntry.self w2) = hash_type self ->
  HashEntry.__str__ w2 = (Return t2, w2') ->
  exists s1 : state,
    append self s = (Return (), s1)
    /\ append self (with_entry s1 w2) =
         (Return (),
          State (TextIO.make
                   (TextIO.content (file_obj s)
                    ++ (if TextIO.needs_newline (TextIO.content (file_obj s))
                        then [LF] else [])
                    ++ t1 ++ [LF] ++ t2 ++ [LF])
                   (TextIO.position (file_obj s)))
                w2').
Proof.
  intros Hty1 Hstr1 Hty2 Hstr2. eexists. split.
  { apply (OpenHashFileFacts.append_run self s t1 w1 Hty1 Hstr1). }
  unfold with_entry. cbn [file_obj].
  match goal with
  | |- append self ?s2 = _ =>
      rewrite (OpenHashFileFacts.append_run self s2 t2 w2' Hty2 Hstr2)
  end.
  cbn [file_obj TextIO.content TextIO.position].
  rewrite !app_assoc, needs_newline_after_line. cbn [app].
  rewrite <- !app_assoc. reflexivity.
Qed.

(** X9: when the line of the entry cannot be produced (an uncached entry
    whose target cannot be read), [append] raises what [__str__] raised
    with the text of the stream unchanged, and the cursor is left at the
    end of the stream, not where it was. *)
Theorem append_unprintable_entry (self : t) (s : state) (e : exn)
    (w' : HashEntry.world) :
  HashEntry.hash_type_of (HashEntry.self (arg s)) = hash_type self ->
  HashEntry.__str__ (arg s) = (Raise e, w') ->
  append self s =
    (Raise e,
     State (TextIO.make (TextIO.content (file_obj s))
              (length (TextIO.content (file_obj s)))) w').
Proof.
  intros Hty Hstr. rewrite OpenHashFileFacts.append_cases. cbv zeta.
  rewrite bool_decide_eq_true_2 by exact Hty. rewrite Hstr. reflexivity.
Qed.

(** A line of the stream that parses to an entry for another path, with
    or without its line feed. *)
Lemma update_loop_pass (self : t) (fuel prev : nat) (before l rest : str)
    (w : HashEntry.world) (found : HashEntry.t) :
  TextIO.stream_line l rest = true ->
  parse self l = Return found ->
  HashEntry.filepath found <> HashEntry.filepath (HashEntry.self w) ->
  update_loop (S fuel) self prev
    (State (TextIO.make (before ++ l ++ rest) (length before)) w) =
  update_loop fuel self (length before + length l)
    (State (TextIO.make (before ++ l ++ rest) (length before + length l)) w).
Proof.
  intros Hl Hparse Hpath.
  cbn [update_loop]. rewrite bind_run. unfold readline, on_file.
  cbn [file_obj arg].
  rewrite (OpenHashFileFacts.readline_line before l rest Hl).
  rewrite (OpenHashFileFacts.stream_line_nonempty l rest Hl).
  fold (parse self l). rewrite Hparse. unfold on_entry, tell, on_file. run.
  rewrite bool_decide_eq_false_2 by congruence. reflexivity.
Qed.

Lemma update_loop_at_end (self : t) (fuel prev : nat) (text : str)
    (w : HashEntry.world) :
  update_loop (S fuel) self prev (State (TextIO.make text (length text)) w) =
    (Return false, State (TextIO.make text (length text)) w).
Proof.
  cbn [update_loop]. rewrite bind_run.
  unfold readline, on_file, TextIO.readline.
  cbn [file_obj arg TextIO.content TextIO.position].
  rewrite drop_all. cbn [span app length Nat.eqb]. rewrite Nat.add_0_r.
  reflexivity.
Qed.

(** The scan of [update] over lines none of which is for the path. *)
Lemma update_loop_miss (self : t) (skipped : list str) (final : str)
    (before : str) (w : HashEntry.world) :
  Forall (other_entry_line self (HashEntry.filepath (HashEntry.self w)))
    skipped ->
  (final = []
   \/ (TextIO.stream_line final [] = true
       /\ exists found : HashEntry.t,
            parse self final = Return found
            /\ HashEntry.filepath found
               <> HashEntry.filepath (HashEntry.self w))) ->
  let text := before ++ concat skipped ++ final in
  update_loop (S (length text)) self (length before)
    (State (TextIO.make text (length before)) w) =
  (Return false, State (TextIO.make text (length text)) w).
Proof.
  intros Hskip Hfinal text.
  pose proof (OpenHashFileFacts.skipped_length _ _ _ Hskip) as Hn.
  destruct Hfinal as [->|(Hline & found & Hparse & Hpath)].
  - assert (Hfuel : S (length text) =
                    length skipped + S (length text - length skipped)).
    { subst text. rewrite !length_app. lia. }
    rewrite Hfuel. subst text.
    rewrite (OpenHashFileFacts.update_loop_skip_all self skipped _ before []
               w Hskip).
    rewrite !app_nil_r. apply update_loop_at_end.
  - pose proof (OpenHashFileFacts.stream_line_nonempty final [] Hline) as Hne.
    apply Nat.eqb_neq in Hne.
    assert (Hfuel : S (length text) =
                    length skipped
                    + S (S (length text - length skipped - 1))).
    { subst text. rewrite !length_app. lia. }
    rewrite Hfuel. subst text.
    rewrite (OpenHashFileFacts.update_loop_skip_all self skipped _ before
               final w Hskip).
    rewrite (app_assoc before (concat skipped) final).
    pose proof (update_loop_pass self
                  (S (length ((before ++ concat skipped) ++ final)
                      - length skipped - 1))
                  (length (before ++ concat skipped))
                  (before ++ concat skipped) final [] w found Hline Hparse
                  Hpath) as Hstep.
    rewrite !app_nil_r in Hstep. rewrite Hstep.
    rewrite <- length_app. apply update_loop_at_end.
Qed.

(** X10: when every line from the cursor on is an entry for another path
    (complete lines, and possibly a last one without its line feed),
    [update] falls back to [append]: a line feed if the text lacked its
    final one, then the line of the entry, at the end of the stream, and
    the cursor where it was. *)
Theorem update_miss_appends (self : t) (s : state) (before : str)
    (skipped : list str) (final text : str) (w' : HashEntry.world) :
  HashEntry.hash_type_of (HashEntry.self (arg s)) = hash_type self ->
  TextIO.content (file_obj s) = before ++ concat skipped ++ final ->
  TextIO.position (file_obj s) = length before ->
  Forall (other_entry_line self (HashEntry.filepath (HashEntry.self (arg s))))
    skipped ->
  (final = []
   \/ (TextIO.stream_line final [] = true
       /\ exists found : HashEntry.t,
            parse self final = Return found
            /\ HashEntry.filepath found
               <> HashEntry.filepath (HashEntry.self (arg s)))) ->
  HashEntry.__str__ (arg s) = (Return text, w') ->
  let old := TextIO.content (file_obj s) in
  update self s =
    (Return (),
     State (TextIO.make
              (old ++ (if TextIO.needs_newline old then [LF] else [])
                   ++ text ++ [LF])
              (length before)) w')
  /\ update self s = append self s.
Proof.
  destruct s as [[old p] w]. cbn [arg file_obj TextIO.content TextIO.position].
  intros Hty -> -> Hskip Hfinal Hstr. cbv zeta.
  set (old := before ++ concat skipped ++ final).
  assert (Hupd : update self (State (TextIO.make old (length before)) w) =
                 (Return (),
                  State (TextIO.make
                           (old ++ (if TextIO.needs_newline old
                                    then [LF] else []) ++ text ++ [LF])
                           (length before)) w')).
  { unfold update.
    rewrite bind_run, OpenHashFileFacts.hash_type_run. cbn [arg].
    rewrite bool_decide_eq_true_2 by exact Hty. cbn [negb].
    rewrite bind_run, OpenHashFileFacts.tell_run, bind_run,
      OpenHashFileFacts.loop_bound_run, bind_run.
    cbn [file_obj TextIO.content TextIO.position].
    unfold old.
    rewrite (update_loop_miss self skipped final before w Hskip Hfinal).
    fold old. rewrite bind_run.
    rewrite (OpenHashFileFacts.append_run self
               (State (TextIO.make old (length old)) w) text w' Hty Hstr).
    reflexivity. }
  split; [exact Hupd|]. rewrite Hupd. symmetry.
  apply (OpenHashFileFacts.append_run self
           (State (TextIO.make old (length before)) w) text w' Hty Hstr).
Qed.

Lemma update_loop_bad_line (self : t) (fuel prev : nat) (before l rest : str)
    (w : HashEntry.world) (e : exn) :
  TextIO.stream_line l rest = true ->
  parse self l = Raise e ->
  update_loop (S fuel) self prev
    (State (TextIO.make (before ++ l ++ rest) (length before)) w) =
  (Raise e,
   State (TextIO.make (before ++ l ++ rest) (length before + length l)) w).
Proof.
  intros Hl Hparse.
  cbn [update_loop]. rewrite bind_run. unfold readline, on_file.
  cbn [file_obj arg].
  rewrite (OpenHashFileFacts.readline_line before l rest Hl).
  rewrite (OpenHashFileFacts.stream_line_nonempty l rest Hl).
  fold (parse self l). rewrite Hparse. reflexivity.
Qed.

(** X11: when the scan of [update] meets a line that does not parse before
    it meets the path, [update] raises what the parser raised: the text of
    the stream and the entry are unchanged, nothing is appended, and the
    cursor is left just after the offending line, not where it was. *)
Theorem update_stops_at_bad_line (self : t) (s : state) (before : str)
    (skipped : list str) (bad after : str) (e : exn) :
  HashEntry.hash_type_of (HashEntry.self (arg s)) = hash_type self ->
  TextIO.content (file_obj s) = before ++ concat skipped ++ bad ++ after ->
  TextIO.position (file_obj s) = length before ->
  Forall (other_entry_line self (HashEntry.filepath (HashEntry.self (arg s))))
    skipped ->
  TextIO.stream_line bad after = true ->
  parse self bad = Raise e ->
  update self s =
    (Raise e,
     State (TextIO.make (TextIO.content (file_obj s))
              (length before + length (concat skipped) + length bad))
           (arg s)).
Proof.
  destruct s as [[text p] w]. cbn [arg file_obj TextIO.content TextIO.position].
  intros Hty -> -> Hskip Hline Hparse.
  unfold update. rewrite bind_run, OpenHashFileFacts.hash_type_run. cbn [arg].
  rewrite bool_decide_eq_true_2 by exact Hty. cbn [negb].
  rewrite bind_run, OpenHashFileFacts.tell_run, bind_run,
    OpenHashFileFacts.loop_bound_run, bind_run.
  cbn [file_obj TextIO.content TextIO.position].
  pose proof (OpenHashFileFacts.skipped_length _ _ _ Hskip) as Hn.
  set (text := before ++ concat skipped ++ bad ++ after).
  assert (Hfuel : S (length text) =
                  length skipped + S (length text - length skipped)).
  { subst text. rewrite !length_app. lia. }
  rewrite Hfuel. subst text.
  rewrite (OpenHashFileFacts.update_loop_skip_all self skipped _ before _ w
             Hskip).
  rewrite (app_assoc before (concat skipped)).
  rewrite (update_loop_bad_line self _ _ (before ++ concat skipped) bad after
             w e Hline Hparse).
  rewrite length_app. reflexivity.
Qed.

Lemma write_from (before x new : str) :
  TextIO.write new (TextIO.make (before ++ x) (length before)) =
    TextIO.make (before ++ new ++ drop (length new) x)
      (length before + length new).
Proof.
  unfold TextIO.write. cbn [TextIO.content TextIO.position].
  rewrite take_app_length.
  replace (length before - length (before ++ x)) with 0
    by (rewrite length_app; lia).
  cbn [replicate app]. rewrite drop_app_add'; auto.
Qed.

Lemma update_hit_run (self : t) (s : state)
    (before : str) (skipped : list str) (line after : str)
    (found : HashEntry.t) (new_hash : str) (w' : HashEntry.world) :
  HashEntry.hash_type_of (HashEntry.self (arg s)) = hash_type self ->
  TextIO.content (file_obj s) = before ++ concat skipped ++ line ++ after ->
  TextIO.position (file_obj s) = length before ->
  Forall (other_entry_line self (HashEntry.filepath (HashEntry.self (arg s))))
    skipped ->
  TextIO.stream_line line after = true ->
  parse self line = Return found ->
  HashEntry.filepath found = HashEntry.filepath (HashEntry.self (arg s)) ->
  HashEntry.hash (arg s) = (Return new_hash, w') ->
  update self s =
    (Return (),
     State (TextIO.make
              (before ++ concat skipped ++ new_hash
               ++ drop (length new_hash) (line ++ after))
              (length before)) w').
Proof.
  destruct s as [[text p] w]. cbn [arg file_obj TextIO.content TextIO.position].
  intros Hty -> -> Hskip Hline Hparse Hpath Hhash.
  unfold update. rewrite bind_run, OpenHashFileFacts.hash_type_run. cbn [arg].
  rewrite bool_decide_eq_true_2 by exact Hty. cbn [negb].
  rewrite bind_run, OpenHashFileFacts.tell_run, bind_run,
    OpenHashFileFacts.loop_bound_run, bind_run.
  cbn [file_obj TextIO.content TextIO.position].
  pose proof (OpenHashFileFacts.skipped_length _ _ _ Hskip) as Hn.
  set (text := before ++ concat skipped ++ line ++ after).
  assert (Hfuel : S (length text) =
                  length skipped + S (length text - length skipped)).
  { subst text. rewrite !length_app. lia. }
  rewrite Hfuel. subst text.
  rewrite (OpenHashFileFacts.update_loop_skip_all self skipped _ before _ w
             Hskip).
  rewrite (app_assoc before (concat skipped)).
  rewrite (OpenHashFileFacts.update_loop_hit self _ (before ++ concat skipped)
             line after w w' found new_hash Hline Hparse Hpath Hhash).
  rewrite (write_from (before ++ concat skipped) (line ++ after) new_hash).
  rewrite bind_run. unfold mret, M_ret, seek, on_file, TextIO.seek.
  cbn [file_obj arg TextIO.content].
  rewrite <- app_assoc. reflexivity.
Qed.

(** X12: on a match [update] writes the new hash from the start of the
    matched line on, over as many characters as the new hash has, whatever
    the line looks like: white space before the stored digest, or a stored
    digest of another length, is not accounted for, and the characters
    after the written ones stay. *)
Theorem update_writes_at_line_start (self : t) (s : state)
    (before : str) (skipped : list str) (line after : str)
    (found : HashEntry.t) (new_hash : str) (w' : HashEntry.world) :
  HashEntry.hash_type_of (HashEntry.self (arg s)) = hash_type self ->
  TextIO.content (file_obj s) = before ++ concat skipped ++ line ++ after ->
  TextIO.position (file_obj s) = length before ->
  Forall (other_entry_line self (HashEntry.filepath (HashEntry.self (arg s))))
    skipped ->
  TextIO.stream_line line after = true ->
  parse self line = Return found ->
  HashEntry.filepath found = HashEntry.filepath (HashEntry.self (arg s)) ->
  HashEntry.hash (arg s) = (Return new_hash, w') ->
  update self s =
    (Return (),
     State (TextIO.make
              (before ++ concat skipped ++ new_hash
               ++ drop (length new_hash) (line ++ after))
              (length before)) w').
Proof. apply update_hit_run. Qed.

(** *** What [append] and [update] leave alone *)

(** The text of [f'] agrees with the text of [f] before the cursor of [f]
    and is not shorter. *)
Lemma kept_refl (c : str) (q : nat) :
  take (q `min` length c) c = take (q `min` length c) c
  /\ length c <= length c.
Proof. split; [reflexivity | lia]. Qed.

Lemma write_keeps_before (c h : str) (q : nat) :
  q <= length c ->
  take q (TextIO.content (TextIO.write h (TextIO.make c q))) = take q c
  /\ length c <= length (TextIO.content (TextIO.write h (TextIO.make c q))).
Proof.
  intros Hq. unfold TextIO.write. cbn [TextIO.content TextIO.position].
  split.
  - rewrite take_app_length' by (rewrite length_take; lia). reflexivity.
  - rewrite !length_app, length_take, length_drop. lia.
Qed.

Lemma update_loop_keeps_before (self : t) (fuel : nat) :
  forall (f : TextIO.t) (w : HashEntry.world) (r : result bool) (s' : state),
  update_loop fuel self (TextIO.position f) (State f w) = (r, s') ->
  let m := TextIO.position f `min` length (TextIO.content f) in
  take m (TextIO.content (file_obj s')) = take m (TextIO.content f)
  /\ length (TextIO.content f) <= length (TextIO.content (file_obj s')).
Proof.
  induction fuel as [|fuel IH]; intros f w r s'; cbv zeta.
  { intros [= <- <-]. cbn. split; [reflexivity | lia]. }
  cbn [update_loop]. rewrite bind_run. unfold readline, on_file.
  cbn [file_obj arg].
  destruct (TextIO.readline f) as [line f1] eqn:Hread.
  destruct line as [|c line].
  { apply OpenHashFileFacts.readline_at_end in Hread as [_ ->].
    intros [= <- <-]. cbn. split; [reflexivity | lia]. }
  assert (Hne : c :: line <> []) by discriminate.
  destruct (OpenHashFileFacts.readline_progress f f1 _ Hread Hne)
    as (Hc & Hp & Hlt).
  change (length (c :: line) =? 0) with false. cbv beta iota.
  rewrite bind_run. unfold lift_result. fold (parse self (c :: line)).
  destruct (parse self (c :: line)) as [found|e].
  2:{ intros [= <- <-]. cbn [file_obj]. rewrite Hc.
      split; [reflexivity | lia]. }
  rewrite bind_run. unfold on_entry at 1, gets. cbn [arg file_obj].
  destruct (bool_decide _).
  - rewrite bind_run, OpenHashFileFacts.seek_run, bind_run.
    unfold on_entry. cbn [arg file_obj].
    destruct (HashEntry.hash w) as [[h|e] w1].
    + rewrite bind_run. unfold write, on_file. cbn [file_obj arg].
      intros [= <- <-]. cbn [file_obj]. unfold TextIO.seek. rewrite Hc.
      destruct (write_keeps_before (TextIO.content f) h (TextIO.position f))
        as [Ht Hl]; [lia|].
      rewrite Nat.min_l by lia. split; assumption.
    + intros [= <- <-]. cbn [file_obj]. unfold TextIO.seek.
      cbn [TextIO.content]. rewrite Hc. split; [reflexivity | lia].
  - rewrite bind_run, OpenHashFileFacts.tell_run. cbn [file_obj].
    intros Hrec. destruct (IH f1 w r s' Hrec) as [Ht Hl].
    rewrite Hc, Hp in Ht. rewrite Hc in Hl.
    split; [|exact Hl].
    apply (f_equal (take (TextIO.position f `min` length (TextIO.content f))))
      in Ht.
    rewrite !take_take in Ht.
    replace ((_ `min` _) `min` _) with
      (TextIO.position f `min` length (TextIO.content f)) in Ht by lia.
    exact Ht.
Qed.

(** X13: [append] only adds to the end of the stream, and [update],
    however it ends, never changes a character before the cursor it was
    called at and never makes the stream shorter. *)
Theorem writes_leave_text_before_cursor (self : t) (s : state) :
  (exists added : str,
     TextIO.content (file_obj (snd (append self s))) =
       TextIO.content (file_obj s) ++ added)
  /\ (let m := TextIO.position (file_obj s)
               `min` length (TextIO.content (file_obj s)) in
      take m (TextIO.content (file_obj (snd (update self s)))) =
        take m (TextIO.content (file_obj s))
      /\ length (TextIO.content (file_obj s))
         <= length (TextIO.content (file_obj (snd (update self s))))).
Proof.
  assert (Happ : forall s0 : state,
            exists added : str,
              TextIO.content (file_obj (snd (append self s0))) =
                TextIO.content (file_obj s0) ++ added).
  { intros s0. rewrite OpenHashFileFacts.append_cases. cbv zeta.
    destruct (bool_decide _); [|exists []; cbn; rewrite app_nil_r; reflexivity].
    destruct (HashEntry.__str__ (arg s0)) as [[text|e] w'].
    - eexists. cbn. reflexivity.
    - exists []. cbn. rewrite app_nil_r. reflexivity. }
  split; [apply Happ|]. cbv zeta.
  destruct s as [f w]. cbn [file_obj].
  unfold update. rewrite bind_run, OpenHashFileFacts.hash_type_run.
  destruct (negb _); [cbn; split; [reflexivity | lia]|].
  rewrite bind_run, OpenHashFileFacts.tell_run, bind_run,
    OpenHashFileFacts.loop_bound_run, bind_run.
  cbn [file_obj].
  destruct (update_loop _ self _ (State f w)) as [[broke|e] s1] eqn:Hrun;
    apply update_loop_keeps_before in Hrun; cbv zeta in Hrun;
    [|exact Hrun].
  destruct Hrun as [Ht Hl]. rewrite bind_run. destruct broke.
  - cbn. split; assumption.
  - destruct (Happ s1) as [added Hadd].
    destruct (append self s1) as [[[]|e] s2]; cbn [snd] in *.
    + cbn. rewrite Hadd.
      rewrite take_app_le by lia. rewrite length_app. split; [exact Ht | lia].
    + rewrite Hadd. rewrite take_app_le by lia. rewrite length_app.
      split; [exact Ht | lia].
Qed.

(** *** Scanning *)

Lemma entries_loop_frame (self : t) (fuel : nat) :
  forall (f : TextIO.t) (w : HashEntry.world)
         (r : result (list HashEntry.t)) (s' : state),
  entries_loop fuel self (State f w) = (r, s') ->
  TextIO.content (file_obj s') = TextIO.content f /\ arg s' = w.
Proof.
  induction fuel as [|fuel IH]; intros f w r s'.
  { intros [= <- <-]. auto. }
  cbn [entries_loop]. rewrite bind_run. unfold readline, on_file.
  cbn [file_obj arg].
  destruct (TextIO.readline f) as [line f1] eqn:Hread.
  assert (Hc : TextIO.content f1 = TextIO.content f).
  { unfold TextIO.readline in Hread. destruct (span _ _).
    injection Hread as _ <-. reflexivity. }
  destruct (length line =? 0).
  { intros [= <- <-]. auto. }
  rewrite bind_run. unfold lift_result.
  destruct (HashEntry.from_str _ _ _) as [found|e].
  2:{ intros [= <- <-]. auto. }
  rewrite bind_run.
  destruct (entries_loop fuel self (State f1 w)) as [[rest|e] s1] eqn:Hrec;
    apply IH in Hrec as [H1 H2]; intros [= <- <-]; rewrite <- Hc; auto.
Qed.

(** X14: a scan with [entries] returns the entries parsed from the lines
    between the cursor and the end of the stream, in order, or raises what
    the first line that does not parse makes the parser raise; it never
    changes the text of the stream or the entry at hand, and when it
    returns the cursor is at the end of the stream (or where it was, if
    that was beyond the end). *)
Theorem entries_scan (self : t) (s : state) :
  fst (entries self s) =
    parse_lines self (fst (TextIO.readlines (file_obj s)))
  /\ TextIO.content (file_obj (snd (entries self s))) =
       TextIO.content (file_obj s)
  /\ arg (snd (entries self s)) = arg s
  /\ (forall es : list HashEntry.t,
        fst (entries self s) = Return es ->
        TextIO.position (file_obj (snd (entries self s))) =
          TextIO.position (file_obj s)
          `max` length (TextIO.content (file_obj s))).
Proof.
  split; [apply OpenHashFileFacts.entries_result|].
  assert (Hframe : TextIO.content (file_obj (snd (entries self s))) =
                     TextIO.content (file_obj s)
                   /\ arg (snd (entries self s)) = arg s).
  { destruct s as [f w]. unfold entries.
    rewrite bind_run, OpenHashFileFacts.loop_bound_run.
    destruct (entries_loop _ self (State f w)) as [r s'] eqn:Hrun.
    apply entries_loop_frame in Hrun. exact Hrun. }
  split; [apply Hframe|]. split; [apply Hframe|].
  intros es Hes. rewrite OpenHashFileFacts.entries_result in Hes.
  rewrite (OpenHashFileFacts.entries_reads_lines self s es Hes).
  reflexivity.
Qed.

(** X15: a scan consumes the stream: after a scan that returned, a second
    scan without a seek in between returns no entry and moves nothing. *)
Theorem entries_again_is_empty (self : t) (s : state)
    (es : list HashEntry.t) :
  fst (entries self s) = Return es ->
  entries self (snd (entries self s)) = (Return [], snd (entries self s)).
Proof.
  intros Hes. rewrite OpenHashFileFacts.entries_result in Hes.
  rewrite (OpenHashFileFacts.entries_reads_lines self s es Hes).
  cbn [snd]. destruct s as [[c p] w].
  unfold TextIO.readlines.
  cbn [file_obj arg snd TextIO.content TextIO.position].
  rewrite (OpenHashFileFacts.entries_reads_lines self _ []).
  - unfold TextIO.readlines.
    cbn [file_obj arg snd TextIO.content TextIO.position].
    rewrite Nat.max_l by lia. reflexivity.
  - unfold TextIO.readlines.
    cbn [file_obj arg fst TextIO.content TextIO.position].
    rewrite drop_ge by lia. reflexivity.
Qed.

Lemma split_lines_app_line (s x cur : str) :
  TextIO.split_lines cur (s ++ [LF] ++ x) =
    TextIO.split_lines cur (s ++ [LF]) ++ TextIO.split_lines [] x.
Proof.
  revert cur. induction s as [|c s IH]; intros cur.
  - reflexivity.
  - cbn. destruct (is_LF c); [|apply IH].
    rewrite IH. reflexivity.
Qed.

Lemma split_lines_after_text (old x : str) :
  TextIO.needs_newline old = false ->
  TextIO.split_lines [] (old ++ x) =
    TextIO.split_lines [] old ++ TextIO.split_lines [] x.
Proof.
  unfold TextIO.needs_newline.
  destruct old as [|z old _] using rev_ind; [reflexivity|].
  rewrite last_snoc. intros Hz%negb_false_iff. unfold is_LF in Hz.
  apply Ascii.eqb_eq in Hz. subst z.
  rewrite <- app_assoc. apply split_lines_app_line.
Qed.

Lemma parse_lines_snoc (self : t) (lines : list str) (line : str)
    (es : list HashEntry.t) (found : HashEntry.t) :
  parse_lines self lines = Return es ->
  parse self line = Return found ->
  parse_lines self (lines ++ [line]) = Return (es ++ [found]).
Proof.
  revert es. induction lines as [|l lines IH]; intros es Hes Hline.
  - injection Hes as <-. cbn. rewrite Hline. reflexivity.
  - cbn [parse_lines app] in *.
    destruct (parse self l) as [e0|x]; [|discriminate].
    destruct (parse_lines self lines) as [rest|x]; [|discriminate].
    injection Hes as <-. rewrite (IH rest eq_refl Hline). reflexivity.
Qed.

(** The line of a representable entry: it holds no line feed, and the
    stream parses it (with its line feed) back to the path, the mode and
    the digest of the entry. *)
Lemma own_line_no_LF (e : HashEntry.t) :
  HashEntry.representable e = true ->
  forallb (fun c => negb (is_LF c))
    (HashEntry._hash_cache e ++ [SP] ++ [HashEntry.marker e]
     ++ HashEntry.filepath e) = true.
Proof.
  intros Hrep. unfold HashEntry.representable in Hrep.
  apply andb_prop in Hrep as [Hrep _]. apply andb_prop in Hrep as [Hrep _].
  apply andb_prop in Hrep as [Hrep Hp]. apply andb_prop in Hrep as [_ Hhex].
  rewrite !forallb_app. cbn. rewrite Hp, !andb_true_r.
  assert (Hh : forallb (fun c => negb (is_LF c)) (HashEntry._hash_cache e)
               = true).
  { apply forallb_forall. intros c Hin.
    rewrite forallb_forall in Hhex. specialize (Hhex c Hin).
    apply hex_not_space in Hhex.
    destruct (is_LF c) eqn:E; [|reflexivity].
    unfold is_LF in E. apply Ascii.eqb_eq in E. subst c. discriminate. }
  rewrite Hh. unfold HashEntry.marker. destruct (HashEntry.binary e);
    reflexivity.
Qed.

Lemma own_line_parses (self : t) (e : HashEntry.t) (h : HASH) :
  line_split self = None ->
  HashEntry.representable e = true ->
  algorithms_available (hash_type self) = true ->
  hashlib_new (hash_type self) = Some h ->
  let text := HashEntry._hash_cache e ++ [SP] ++ [HashEntry.marker e]
              ++ HashEntry.filepath e in
  parse self (text ++ [LF]) =
    Return (HashEntry.make (HashEntry._hash_cache e) h (text ++ [LF])
              (HashEntry.binary e) (HashEntry.filepath e)).
Proof.
  intros Hsplit Hrep Hav Hnew text. unfold parse. rewrite Hsplit.
  pose proof (HashEntryMore.from_str_padded [] text [LF]
                (Some (hash_type self)) eq_refl eq_refl) as Hpad.
  cbn [app] in Hpad. rewrite Hpad.
  unfold HashEntry.from_str. cbn [default]. unfold text at 1.
  rewrite (HashEntryFacts.default_split_of_line e Hrep).
  unfold HashEntry.__init__.
  change (default DEFAULT_HASH_TYPE (Some (hash_type self)))
    with (hash_type self).
  rewrite Hav, Hnew. reflexivity.
Qed.

Lemma str_of_representable (w : HashEntry.world) :
  HashEntry.representable (HashEntry.self w) = true ->
  HashEntry.hash w = (Return (HashEntry._hash_cache (HashEntry.self w)), w)
  /\ HashEntry.__str__ w =
       (Return (HashEntry._hash_cache (HashEntry.self w) ++ [SP]
                ++ [HashEntry.marker (HashEntry.self w)]
                ++ HashEntry.filepath (HashEntry.self w)), w).
Proof.
  intros Hrep.
  assert (Hcached : HashEntry._hash_cache (HashEntry.self w) <> []).
  { unfold HashEntry.representable in Hrep.
    repeat (apply andb_prop in Hrep as [Hrep _]).
    apply negb_true_iff, bool_decide_eq_false in Hrep. exact Hrep. }
  split; [apply (HashEntryFacts.hash_of_cached w Hcached)|].
  rewrite HashEntryFacts.str_unfold,
    (HashEntryFacts.hash_of_cached w Hcached). reflexivity.
Qed.

(** X16: what [append] writes, a scan reads back.  On a stream with the
    default splitter whose text ends with a line feed (or is empty) and
    parses to the entries [es], appending a representable entry and
    scanning from offset 0 returns [es] followed by one entry with the
    path, the mode and the digest of the appended one. *)
Theorem append_then_scan (self : t) (s : state) (h : HASH)
    (es : list HashEntry.t) :
  line_split self = None ->
  HashEntry.hash_type_of (HashEntry.self (arg s)) = hash_type self ->
  HashEntry.representable (HashEntry.self (arg s)) = true ->
  algorithms_available (hash_type self) = true ->
  hashlib_new (hash_type self) = Some h ->
  TextIO.needs_newline (TextIO.content (file_obj s)) = false ->
  parse_lines self (TextIO.split_lines [] (TextIO.content (file_obj s))) =
    Return es ->
  exists (s1 : state) (found : HashEntry.t),
    append self s = (Return (), s1)
    /\ fst (entries self (rewound s1)) = Return (es ++ [found])
    /\ HashEntry.filepath found = HashEntry.filepath (HashEntry.self (arg s))
    /\ HashEntry.binary found = HashEntry.binary (HashEntry.self (arg s))
    /\ HashEntry._hash_cache found
       = HashEntry._hash_cache (HashEntry.self (arg s)).
Proof.
  intros Hsplit Hty Hrep Hav Hnew Hnl Hold.
  destruct s as [[old p] w]. cbn [arg file_obj TextIO.content] in *.
  set (e := HashEntry.self w) in *.
  set (text := HashEntry._hash_cache e ++ [SP] ++ [HashEntry.marker e]
               ++ HashEntry.filepath e).
  destruct (str_of_representable w Hrep) as [_ Hstr]. fold e text in Hstr.
  pose proof (own_line_parses self e h Hsplit Hrep Hav Hnew) as Hparse.
  cbv zeta in Hparse. fold text in Hparse.
  eexists _, (HashEntry.make (HashEntry._hash_cache e) h (text ++ [LF])
                (HashEntry.binary e) (HashEntry.filepath e)).
  split.
  { apply (OpenHashFileFacts.append_run self
             (State (TextIO.make old p) w) text w Hty Hstr). }
  split; [|split; [|split]; reflexivity].
  rewrite OpenHashFileFacts.entries_result. unfold rewound, TextIO.readlines.
  cbn [file_obj arg fst TextIO.seek TextIO.content TextIO.position].
  rewrite drop_0, Hnl. cbn [app].
  rewrite (split_lines_after_text old (text ++ [LF]) Hnl).
  rewrite (OpenHashFileFacts.split_lines_last_line text []
             (own_line_no_LF e Hrep)).
  cbn [rev app]. apply parse_lines_snoc; assumption.
Qed.

Lemma complete_own_line (text : str) :
  forallb (fun c => negb (is_LF c)) text = true ->
  TextIO.stream_line (text ++ [LF]) [] = true.
Proof.
  intros Hlf. unfold TextIO.stream_line, TextIO.complete_line.
  rewrite (span_stop _ text LF [] Hlf eq_refl). reflexivity.
Qed.

(** X17: an entry that was appended can be updated in place later.  On a
    stream with the default splitter, after a representable entry was
    appended to lines for other paths, [update] with an entry for the same
    path whose digest has the same length replaces the digest in the
    appended line and changes nothing else. *)
Theorem append_then_update (self : t) (s : state) (h : HASH)
    (before : str) (skipped : list str) (w2 w2' : HashEntry.world)
    (new_hash : str) :
  line_split self = None ->
  algorithms_available (hash_type self) = true ->
  hashlib_new (hash_type self) = Some h ->
  HashEntry.hash_type_of (HashEntry.self (arg s)) = hash_type self ->
  HashEntry.representable (HashEntry.self (arg s)) = true ->
  TextIO.content (file_obj s) = before ++ concat skipped ->
  TextIO.position (file_obj s) = length before ->
  TextIO.needs_newline (TextIO.content (file_obj s)) = false ->
  Forall (other_entry_line self (HashEntry.filepath (HashEntry.self (arg s))))
    skipped ->
  HashEntry.hash_type_of (HashEntry.self w2) = hash_type self ->
  HashEntry.filepath (HashEntry.self w2)
    = HashEntry.filepath (HashEntry.self (arg s)) ->
  HashEntry.hash w2 = (Return new_hash, w2') ->
  length new_hash = length (HashEntry._hash_cache (HashEntry.self (arg s))) ->
  let tail := [SP] ++ [HashEntry.marker (HashEntry.self (arg s))]
              ++ HashEntry.filepath (HashEntry.self (arg s)) ++ [LF] in
  exists s1 : state,
    append self s = (Return (), s1)
    /\ TextIO.content (file_obj s1) =
         before ++ concat skipped
         ++ HashEntry._hash_cache (HashEntry.self (arg s)) ++ tail
    /\ update self (with_entry s1 w2) =
         (Return (),
          State (TextIO.make (before ++ concat skipped ++ new_hash ++ tail)
                   (length before)) w2').
Proof.
  destruct s as [[old p] w]. cbn [arg file_obj TextIO.content TextIO.position].
  intros Hsplit Hav Hnew Hty Hrep -> -> Hnl Hskip Hty2 Hpath Hhash Hlen.
  cbv zeta.
  set (e := HashEntry.self w) in *.
  set (text := HashEntry._hash_cache e ++ [SP] ++ [HashEntry.marker e]
               ++ HashEntry.filepath e).
  destruct (str_of_representable w Hrep) as [_ Hstr]. fold e text in Hstr.
  pose proof (own_line_parses self e h Hsplit Hrep Hav Hnew) as Hparse.
  cbv zeta in Hparse. fold text in Hparse.
  pose proof (own_line_no_LF e Hrep) as Hlf. fold text in Hlf.
  eexists. split.
  { apply (OpenHashFileFacts.append_run self
             (State (TextIO.make (before ++ concat skipped) (length before)) w)
             text w Hty Hstr). }
  cbn [file_obj TextIO.content TextIO.position]. rewrite Hnl. cbn [app].
  split.
  { unfold text. rewrite <- !app_assoc. reflexivity. }
  unfold with_entry. cbn [file_obj].
  pose proof (update_hit_run self
                (State (TextIO.make
                          ((before ++ concat skipped) ++ text ++ [LF])
                          (length before)) w2)
                before skipped (text ++ [LF]) []
                (HashEntry.make (HashEntry._hash_cache e) h (text ++ [LF])
                   (HashEntry.binary e) (HashEntry.filepath e))
                new_hash w2' Hty2) as Hupd.
  cbn [arg file_obj TextIO.content TextIO.position HashEntry.filepath]
    in Hupd.
  rewrite Hupd.
  - rewrite app_nil_r. unfold text.
    rewrite <- !app_assoc. rewrite drop_app_length' by exact Hlen.
    reflexivity.
  - rewrite app_nil_r, <- app_assoc. reflexivity.
  - reflexivity.
  - rewrite Hpath. exact Hskip.
  - apply complete_own_line, Hlf.
  - exact Hparse.
  - symmetry. exact Hpath.
  - exact Hhash.
Qed.

(** X18: whenever [append] or [update] returns, the cursor is where it was
    when the method was called. *)
Theorem returning_calls_keep_cursor (self : t) (s s' : state) :
  (append self s = (Return (), s') ->
   TextIO.position (file_obj s') = TextIO.position (file_obj s))
  /\ (update self s = (Return (), s') ->
      TextIO.position (file_obj s') = TextIO.position (file_obj s)).
Proof.
  split.
  - rewrite OpenHashFileFacts.append_cases. cbv zeta.
    destruct (bool_decide _); [|discriminate].
    destruct (HashEntry.__str__ (arg s)) as [[text|e] w']; [|discriminate].
    intros [= <-]. reflexivity.
  - unfold update. rewrite bind_run, OpenHashFileFacts.hash_type_run.
    destruct (negb _); [discriminate|].
    rewrite bind_run, OpenHashFileFacts.tell_run, bind_run,
      OpenHashFileFacts.loop_bound_run, bind_run.
    destruct (update_loop _ self _ s) as [[broke|e] s1]; [|discriminate].
    rewrite bind_run.
    destruct (if broke then _ else _) as [[[]|e] s2]; [|discriminate].
    rewrite OpenHashFileFacts.seek_run. intros [= <-]. reflexivity.
Qed.

End Facts.

Import Demo.

Lemma append_twice_witness :
  exists s1 : state,
    append stream (at_cursor (py "ab  g") 2 (entry "cd" "f" false)) =
      (Return (), s1)
    /\ append stream (with_entry s1 (no_reads (entry "ef" "h" true))) =
         (Return (),
          at_cursor (manifest [py "ab  g"; py "cd  f"; py "ef *h"]) 2
            (entry "ef" "h" true)).
Proof.
  exact (append_twice stream (at_cursor (py "ab  g") 2 (entry "cd" "f" false))
           (py "cd  f") (py "ef *h") (no_reads (entry "cd" "f" false))
           (no_reads (entry "ef" "h" true)) (no_reads (entry "ef" "h" true))
           eq_refl eq_refl eq_refl eq_refl).
Defined.

Lemma append_unprintable_entry_witness :
  let e := entry EmptyString "missing.csv" false in
  append stream (at_cursor (manifest [py "ab  g"]) 0 e) =
    (Raise (OSError (py "missing.csv")), at_cursor (manifest [py "ab  g"]) 6 e).
Proof.
  exact (append_unprintable_entry stream
           (at_cursor (manifest [py "ab  g"]) 0 (entry EmptyString "missing.csv" false))
           (OSError (py "missing.csv"))
           (no_reads (entry EmptyString "missing.csv" false)) eq_refl eq_refl).
Defined.

Lemma update_miss_appends_witness :
  let e := entry "cd" "f" false in
  let s := at_cursor (manifest [py "ab  g"] ++ py "ef  h") 0 e in
  update stream s =
    (Return (), at_cursor (manifest [py "ab  g"; py "ef  h"; py "cd  f"]) 0 e)
  /\ update stream s = append stream s.
Proof.
  apply (update_miss_appends stream
           (at_cursor (manifest [py "ab  g"] ++ py "ef  h") 0
              (entry "cd" "f" false))
           [] [py "ab  g" ++ [LF]] (py "ef  h") (py "cd  f")
           (no_reads (entry "cd" "f" false)));
    try reflexivity.
  - constructor; [|constructor].
    split; [reflexivity|].
    eexists. split; [reflexivity|]. vm_compute. discriminate.
  - right. split; [reflexivity|].
    eexists. split; [reflexivity|]. vm_compute. discriminate.
Defined.

Lemma update_stops_at_bad_line_witness :
  let e := entry "cd" "f" false in
  let text := manifest [py "ab  g"; py "junk"; py "ef  f"] in
  update stream (at_cursor text 0 e) =
    (Raise (MalformedLineError (py "junk")), at_cursor text 11 e).
Proof.
  apply (update_stops_at_bad_line stream
           (at_cursor (manifest [py "ab  g"; py "junk"; py "ef  f"]) 0
              (entry "cd" "f" false))
           [] [py "ab  g" ++ [LF]] (py "junk" ++ [LF]) (py "ef  f" ++ [LF])
           (MalformedLineError (py "junk")));
    try reflexivity.
  constructor; [|constructor].
  split; [reflexivity|].
  eexists. split; [reflexivity|]. vm_compute. discriminate.
Defined.

Lemma update_writes_at_line_start_witness :
  (let e := entry "cdef" "f" false in
   update stream (at_cursor (manifest [py "ab  f"]) 0 e) =
     (Return (), at_cursor (manifest [py "cdeff"]) 0 e))
  /\ (let e := entry "cd" "f" false in
      update stream (at_cursor (manifest [py " ab  f"]) 0 e) =
        (Return (), at_cursor (manifest [py "cdb  f"]) 0 e)).
Proof.
  split.
  - apply (update_writes_at_line_start stream
             (at_cursor (manifest [py "ab  f"]) 0 (entry "cdef" "f" false))
             [] [] (py "ab  f" ++ [LF]) []
             (HashEntry.make (py "ab") sha256_obj (py "ab  f" ++ [LF]) false
                (py "f"))
             (py "cdef") (no_reads (entry "cdef" "f" false)));
      first [reflexivity | constructor].
  - apply (update_writes_at_line_start stream
             (at_cursor (manifest [py " ab  f"]) 0 (entry "cd" "f" false))
             [] [] (py " ab  f" ++ [LF]) []
             (HashEntry.make (py "ab") sha256_obj (py " ab  f" ++ [LF]) false
                (py "f"))
             (py "cd") (no_reads (entry "cd" "f" false)));
      first [reflexivity | constructor].
Defined.

Lemma entries_again_is_empty_witness :
  let s := at_cursor (manifest [py "ab  g"; py "ef *h"]) 0
             (entry "cd" "f" false) in
  entries stream (snd (entries stream s)) = (Return [], snd (entries stream s)).
Proof.
  apply (entries_again_is_empty stream
           (at_cursor (manifest [py "ab  g"; py "ef *h"]) 0
              (entry "cd" "f" false))
           [HashEntry.make (py "ab") sha256_obj (py "ab  g" ++ [LF]) false
              (py "g");
            HashEntry.make (py "ef") sha256_obj (py "ef *h" ++ [LF]) true
              (py "h")]).
  reflexivity.
Defined.

Lemma append_then_scan_witness :
  let e := entry "cd" "my file" true in
  exists (s1 : state) (found : HashEntry.t),
    append stream (at_cursor (manifest [py "ab  g"]) 3 e) = (Return (), s1)
    /\ fst (entries stream (rewound s1)) =
         Return ([HashEntry.make (py "ab") sha256_obj (py "ab  g" ++ [LF])
                    false (py "g")] ++ [found])
    /\ HashEntry.filepath found = py "my file"
    /\ HashEntry.binary found = true
    /\ HashEntry._hash_cache found = py "cd".
Proof.
  apply (append_then_scan stream
           (at_cursor (manifest [py "ab  g"]) 3 (entry "cd" "my file" true))
           sha256_obj
           [HashEntry.make (py "ab") sha256_obj (py "ab  g" ++ [LF]) false
              (py "g")]);
    reflexivity.
Defined.

Lemma append_then_update_witness :
  let e := entry "cd" "f" false in
  let e2 := entry "ef" "f" false in
  exists s1 : state,
    append stream (at_cursor (manifest [py "ab  g"]) 0 e) = (Return (), s1)
    /\ TextIO.content (file_obj s1) = manifest [py "ab  g"; py "cd  f"]
    /\ update stream (with_entry s1 (no_reads e2)) =
         (Return (), at_cursor (manifest [py "ab  g"; py "ef  f"]) 0 e2).
Proof.
  apply (append_then_update stream
           (at_cursor (manifest [py "ab  g"]) 0 (entry "cd" "f" false))
           sha256_obj [] [py "ab  g" ++ [LF]]
           (no_reads (entry "ef" "f" false)) (no_reads (entry "ef" "f" false))
           (py "ef"));
    try reflexivity.
  constructor; [|constructor].
  split; [reflexivity|].
  eexists. split; [reflexivity|]. vm_compute. discriminate.
Defined.

End OpenHashFileMore.

(** ** HashFile, further *)

Module HashFileMore.
Import HashFile.
Import Calls.
Section Facts.
Context {hl : Hashlib} {fs : Filesystem}.

(** The handle that holds the stream [f] with the counter at [c]. *)
Lemma enters_held (n : nat) (c : Z) (f : _OpenHashFile.t) (ht path : str)
    (w : Process.t) :
  enters n (State (make c (Some f) ht path) w) =
    (Return (replicate n f), State (make (c + Z.of_nat n) (Some f) ht path) w).
Proof.
  revert c. induction n as [|n IH]; intros c.
  - cbn. rewrite Z.add_0_r. reflexivity.
  - cbn [enters replicate]. rewrite bind_run.
    rewrite (HashFileFacts.enter_held (State (make c (Some f) ht path) w) f
               eq_refl).
    unfold set_count. cbn [self process _count _file _hash_type filepath].
    rewrite bind_run, IH. unfold mret, M_ret.
    replace (c + Z.of_nat (S n))%Z with (c + 1 + Z.of_nat n)%Z by lia.
    reflexivity.
Qed.

Lemma exits_held (k : nat) (c : Z) (f : _OpenHashFile.t) (ht path : str)
    (w : Process.t) :
  (Z.of_nat k < c)%Z ->
  exits k (State (make c (Some f) ht path) w) =
    (Return (), State (make (c - Z.of_nat k) (Some f) ht path) w).
Proof.
  revert c. induction k as [|k IH]; intros c Hk.
  - cbn. rewrite Z.sub_0_r. reflexivity.
  - cbn [exits]. rewrite bind_run.
    rewrite (HashFileFacts.exit_held (State (make c (Some f) ht path) w) f
               eq_refl).
    cbn [self process _count _file _hash_type filepath].
    destruct (Z.eqb_spec (c - 1) 0) as [Hz|Hz]; [lia|].
    unfold set_count. cbn [self process _count _file _hash_type filepath].
    rewrite IH by lia.
    replace (c - Z.of_nat (S k))%Z with (c - 1 - Z.of_nat k)%Z by lia.
    reflexivity.
Qed.

Lemma exit_last (f : _OpenHashFile.t) (ht path : str) (w : Process.t) :
  __exit__ (State (make 1 (Some f) ht path) w) =
    (Return (), State (make 0 None ht path) (_OpenHashFile.close f w)).
Proof.
  rewrite (HashFileFacts.exit_held (State (make 1 (Some f) ht path) w) f
             eq_refl).
  reflexivity.
Qed.

(** X19: [with] statements nest to any depth on a handle made by
    [__init__]: the [n + 1] entries all get the one stream opened by the
    first; it stays open through the first [n] exits, and the last exit
    closes it and brings the handle back to a counter at zero with no
    stream.  One file object was created in all. *)
Theorem nested_with (path : str) (hash_type : option str) (h : t)
    (w : Process.t) (text : str) (n : nat) :
  __init__ path hash_type = Return h ->
  Process.disk w !! path = Some text ->
  exists (f : _OpenHashFile.t) (s1 : state),
    enters (S n) (State h w) = (Return (replicate (S n) f), s1)
    /\ (forall k : nat, k <= n ->
        exists s2 : state,
          exits k s1 = (Return (), s2)
          /\ stream_open f s2 = true
          /\ _count (self s2) = (Z.of_nat (S n) - Z.of_nat k)%Z
          /\ _file (self s2) = Some f)
    /\ exists s3 : state,
         exits (S n) s1 = (Return (), s3)
         /\ stream_open f s3 = false
         /\ _count (self s3) = 0%Z
         /\ _file (self s3) = None
         /\ length (Process.heap (process s3)) = S (length (Process.heap w)).
Proof.
  unfold __init__. destruct (negb _); [discriminate|]. intros [= <-] Hdisk.
  destruct w as [disk heap]. cbn [Process.disk Process.heap] in *.
  set (ht := default DEFAULT_HASH_TYPE hash_type).
  set (f := _OpenHashFile.make (length heap) ht None).
  set (obj := Process.FileObject path (TextIO.make text 0) false).
  set (w1 := Process.make disk (heap ++ [obj])).
  assert (Hopen : Process.is_open (length heap) w1 = true).
  { unfold Process.is_open, w1. cbn [Process.heap].
    rewrite list_lookup_middle by reflexivity. reflexivity. }
  exists f, (State (make (Z.of_nat (S n)) (Some f) ht path) w1).
  split; [|split].
  - cbn [enters replicate]. rewrite bind_run.
    rewrite (HashFileFacts.enter_first
               (State (make 0 None ht path) (Process.make disk heap)) text
               eq_refl Hdisk).
    cbn [self process _count _file _hash_type filepath Process.disk
         Process.heap].
    fold f obj w1. rewrite bind_run, enters_held. unfold mret, M_ret.
    replace (0 + 1 + Z.of_nat n)%Z with (Z.of_nat (S n)) by lia.
    reflexivity.
  - intros k Hk. eexists. split; [apply exits_held; lia|].
    cbn [self process _count _file]. unfold stream_open. cbn [process].
    auto.
  - exists (State (make 0 None ht path) (_OpenHashFile.close f w1)).
    split.
    { replace (S n) with (n + 1) at 1 by lia.
      assert (Hsplit : forall (a b : nat) (s : state) (s' : state),
                exits a s = (Return (), s') ->
                exits (a + b) s = exits b s').
      { intros a. induction a as [|a IHa]; intros b s s' Ha.
        - cbn in Ha. injection Ha as <-. reflexivity.
        - cbn [exits Nat.add] in *. rewrite bind_run in *.
          destruct (__exit__ s) as [[[]|e] s0]; [|discriminate].
          apply IHa, Ha. }
      rewrite (Hsplit n 1 _ _ (exits_held n (Z.of_nat (S n)) f ht path w1
                                 ltac:(lia))).
      replace (Z.of_nat (S n) - Z.of_nat n)%Z with 1%Z by lia.
      cbn [exits]. rewrite bind_run, exit_last. reflexivity. }
    split; [apply HashFileFacts.closed_after_close|].
    split; [reflexivity|]. split; [reflexivity|].
    unfold _OpenHashFile.close, Process.close, w1.
    cbn [process Process.heap]. rewrite length_alter, length_app. cbn. lia.
Qed.

(** X20: an [__enter__] whose [open] fails is counted all the same and an
    [__exit__] does not take it back; when the file exists later, the next
    [with] statement opens it, and its exit leaves the stream open and the
    counter at one. *)
Theorem failed_enter_is_counted (s : state) (text : str) :
  _file (self s) = None ->
  _count (self s) = 0%Z ->
  Process.disk (process s) !! filepath (self s) = None ->
  exists s1 : state,
    __enter__ s = (Raise (OSError (filepath (self s))), s1)
    /\ _count (self s1) = 1%Z
    /\ _file (self s1) = None
    /\ process s1 = process s
    /\ __exit__ s1 = (Return (), s1)
    /\ exists (f : _OpenHashFile.t) (s2 s3 : state),
         __enter__
           (State (self s1)
              (Process.make
                 (<[filepath (self s) := text]> (Process.disk (process s)))
                 (Process.heap (process s)))) = (Return f, s2)
         /\ __exit__ s2 = (Return (), s3)
         /\ stream_open f s3 = true
         /\ _count (self s3) = 1%Z
         /\ _file (self s3) = Some f.
Proof.
  destruct s as [[c file ht path] [disk heap]].
  cbn [self process _file _count filepath Process.disk Process.heap].
  intros -> -> Hdisk.
  exists (State (make 1 None ht path) (Process.make disk heap)).
  split.
  { rewrite (HashFileFacts.enter_failed_open
               (State (make 0 None ht path) (Process.make disk heap))
               eq_refl Hdisk).
    reflexivity. }
  split; [reflexivity|]. split; [reflexivity|]. split; [reflexivity|].
  split; [reflexivity|].
  cbn [self].
  set (f := _OpenHashFile.make (length heap) ht None).
  set (obj := Process.FileObject path (TextIO.make text 0) false).
  set (w1 := Process.make (<[path:=text]> disk) (heap ++ [obj])).
  exists f, (State (make 2 (Some f) ht path) w1),
    (State (make 1 (Some f) ht path) w1).
  split.
  { rewrite (HashFileFacts.enter_first
               (State (make 1 None ht path)
                  (Process.make (<[path:=text]> disk) heap)) text eq_refl).
    - reflexivity.
    - cbn. apply lookup_insert_eq. }
  split; [reflexivity|]. split; [|split; reflexivity].
  unfold stream_open, Process.is_open, w1. cbn.
  rewrite list_lookup_middle by reflexivity. reflexivity.
Qed.

(** X21: a handle can be used again after its stream was closed: the next
    [__enter__] opens a new file object, at another address and with its
    cursor at offset 0, and the old stream stays closed. *)
Theorem enter_after_close (f : _OpenHashFile.t) (ht path : str)
    (w : Process.t) (text : str) :
  Process.is_open (_OpenHashFile._file_obj f) w = true ->
  Process.disk w !! path = Some text ->
  exists (s1 s2 : state) (f' : _OpenHashFile.t),
    __exit__ (State (make 1 (Some f) ht path) w) = (Return (), s1)
    /\ stream_open f s1 = false
    /\ __enter__ s1 = (Return f', s2)
    /\ _OpenHashFile._file_obj f' <> _OpenHashFile._file_obj f
    /\ Process.heap (process s2) !! _OpenHashFile._file_obj f' =
         Some (Process.FileObject path (TextIO.make text 0) false)
    /\ stream_open f s2 = false
    /\ _count (self s2) = 1%Z
    /\ _file (self s2) = Some f'.
Proof.
  intros Hopen Hdisk. destruct w as [disk heap].
  cbn [Process.disk] in Hdisk.
  set (fd := _OpenHashFile._file_obj f) in *.
  assert (Hlt : fd < length heap).
  { unfold Process.is_open in Hopen. cbn [Process.heap] in Hopen.
    destruct (heap !! fd) eqn:E; [|discriminate].
    apply lookup_lt_Some in E. exact E. }
  set (heap1 := alter Process.close_object fd heap).
  set (f' := _OpenHashFile.make (length heap1) ht None).
  set (obj := Process.FileObject path (TextIO.make text 0) false).
  exists (State (make 0 None ht path) (Process.make disk heap1)),
    (State (make 1 (Some f') ht path) (Process.make disk (heap1 ++ [obj]))),
    f'.
  assert (Hclosed : Process.is_open fd (Process.make disk heap1) = false).
  { apply (HashFileFacts.closed_after_close f (Process.make disk heap)). }
  split; [apply exit_last|]. split; [exact Hclosed|].
  split.
  { exact (HashFileFacts.enter_first
             (State (make 0 None ht path) (Process.make disk heap1)) text
             eq_refl Hdisk). }
  assert (Hlen : length heap1 = length heap) by apply length_alter.
  split; [cbn; lia|].
  split; [cbn; apply list_lookup_middle; reflexivity|].
  split; [|split; reflexivity].
  unfold stream_open, Process.is_open in *. cbn [process Process.heap] in *.
  fold fd. rewrite lookup_app_l by lia. exact Hclosed.
Qed.

End Facts.

Import Demo.

Lemma nested_with_witness :
  exists (f : _OpenHashFile.t) (s1 : state),
    enters 3 (State handle fresh_process) = (Return [f; f; f], s1)
    /\ (forall k : nat, k <= 2 ->
        exists s2 : state,
          exits k s1 = (Return (), s2)
          /\ stream_open f s2 = true
          /\ _count (self s2) = (3 - Z.of_nat k)%Z
          /\ _file (self s2) = Some f)
    /\ exists s3 : state,
         exits 3 s1 = (Return (), s3)
         /\ stream_open f s3 = false
         /\ _count (self s3) = 0%Z
         /\ _file (self s3) = None
         /\ length (Process.heap (process s3)) = 1.
Proof.
  exact (nested_with (py "sha256sums") None handle fresh_process
           (manifest [py "ab  f"]) 2 eq_refl eq_refl).
Defined.

Lemma failed_enter_is_counted_witness :
  let s := State (make 0 None (py "sha256") (py "nowhere")) fresh_process in
  exists s1 : state,
    __enter__ s = (Raise (OSError (py "nowhere")), s1)
    /\ _count (self s1) = 1%Z
    /\ _file (self s1) = None
    /\ process s1 = fresh_process
    /\ __exit__ s1 = (Return (), s1)
    /\ exists (f : _OpenHashFile.t) (s2 s3 : state),
         __enter__
           (State (self s1)
              (Process.make
                 (<[py "nowhere" := []]> (Process.disk fresh_process))
                 [])) = (Return f, s2)
         /\ __exit__ s2 = (Return (), s3)
         /\ stream_open f s3 = true
         /\ _count (self s3) = 1%Z
         /\ _file (self s3) = Some f.
Proof.
  exact (failed_enter_is_counted
           (State (make 0 None (py "sha256") (py "nowhere")) fresh_process)
           [] eq_refl eq_refl eq_refl).
Defined.

Lemma enter_after_close_witness :
  exists (s1 s2 : state) (f' : _OpenHashFile.t),
    __exit__ (State held_handle process_with_stream) = (Return (), s1)
    /\ stream_open stream s1 = false
    /\ __enter__ s1 = (Return f', s2)
    /\ _OpenHashFile._file_obj f' <> 0
    /\ Process.heap (process s2) !! _OpenHashFile._file_obj f' =
         Some (Process.FileObject (py "sha256sums")
                 (TextIO.make (manifest [py "ab  f"]) 0) false)
    /\ stream_open stream s2 = false
    /\ _count (self s2) = 1%Z
    /\ _file (self s2) = Some f'.
Proof.
  exact (enter_after_close stream (py "sha256") (py "sha256sums")
           process_with_stream (manifest [py "ab  f"]) eq_refl eq_refl).
Defined.

End HashFileMore.
